(** * The wikidata "Guru": question routing and answer resolution

    A shallow embedding of [src/wikidata.py] (class [Guru]) together with
    the properties its specification states.

    Modelling choices.
    - Text is a [string]: a Python [str] held as the bytes of its UTF-8
      encoding.  An ASCII character is one byte below 128, any other
      character a run of bytes from 128 up, so that [+], [in] and
      [replace] with ASCII phrases act on the bytes as they act on the
      characters.
    - [str.lower], [str.strip] and [str.title] depend on the Unicode
      character tables: like the other collaborators they are fields of
      the environment.  The module [Py] gives them on ASCII text, and
      [Spec.lawful] says of an environment that its built-ins agree with
      them there.
    - A raised exception is a value of [exn]; a computation that may raise
      returns a [res].
    - The SPARQL client, the date parser, the clock and the text built-ins
      are collaborators of the program: they are the fields of an
      environment [Env].
    - The only effect the program has on the outside is the query it sends
      through the client; [run_query] records it in a log that is threaded
      through the computation. *)

From Stdlib Require Import ZArith Ascii String Bool List Lia.
From stdpp Require Import base option gmap strings pretty.

Local Open Scope string_scope.
Local Open Scope Z_scope.

#[local] Arguments String.append !s1 s2 : simpl nomatch.

(** ** Python's text primitives

    [contains], [replace], [is_empty] and [str] are the primitives
    themselves; [lower], [strip] and [title] are what [str.lower],
    [str.strip] and [str.title] do on ASCII text. *)

Module Py.

(** The ASCII characters for which [str.isupper] / [str.islower] hold. *)
Definition is_upper (c : ascii) : bool :=
  let n := nat_of_ascii c in (65 <=? n)%nat && (n <=? 90)%nat.

Definition is_lower (c : ascii) : bool :=
  let n := nat_of_ascii c in (97 <=? n)%nat && (n <=? 122)%nat.

(** An ASCII character is cased when it is a letter. *)
Definition is_cased (c : ascii) : bool := is_upper c || is_lower c.

(** [str.isspace] on one ASCII character: TAB, LF, VT, FF, CR, the four
    separators FS, GS, RS, US and the blank. *)
Definition is_space (c : ascii) : bool :=
  let n := nat_of_ascii c in
  ((9 <=? n)%nat && (n <=? 13)%nat)
  || ((28 <=? n)%nat && (n <=? 31)%nat)
  || (n =? 32)%nat.

Definition lower_char (c : ascii) : ascii :=
  if is_upper c then ascii_of_nat (nat_of_ascii c + 32) else c.

Definition upper_char (c : ascii) : ascii :=
  if is_lower c then ascii_of_nat (nat_of_ascii c - 32) else c.

(** [s.lower()], for an ASCII [s] *)
Fixpoint lower (s : string) : string :=
  match s with
  | EmptyString => EmptyString
  | String c s' => String (lower_char c) (lower s')
  end.

(** [s.startswith(p)] *)
Fixpoint startswith (p s : string) : bool :=
  match p with
  | EmptyString => true
  | String a p' =>
      match s with
      | EmptyString => false
      | String b s' => Ascii.eqb a b && startswith p' s'
      end
  end.

(** [sub in s]: [sub] occurs in [s] at some position. *)
Fixpoint contains (sub s : string) : bool :=
  startswith sub s
  || match s with
     | EmptyString => false
     | String _ s' => contains sub s'
     end.

(** [s.replace(old, new)] for a non-empty [old]: the text is scanned
    from the left; where [old] starts, [new] is written and the scan
    resumes after the occurrence.  [skip] counts the characters of the
    occurrence still to be passed over. *)
Fixpoint replace_from (old new : string) (skip : nat) (s : string) : string :=
  match s with
  | EmptyString => EmptyString
  | String c s' =>
      match skip with
      | S k => replace_from old new k s'
      | O =>
          if startswith old s
          then new +:+ replace_from old new (String.length old - 1) s'
          else String c (replace_from old new O s')
      end
  end.

Definition replace (old new s : string) : string := replace_from old new O s.

(** [s.lstrip()], for an ASCII [s] *)
Fixpoint lstrip (s : string) : string :=
  match s with
  | EmptyString => EmptyString
  | String c s' => if is_space c then lstrip s' else s
  end.

(** [s.rstrip()], for an ASCII [s] *)
Fixpoint rstrip (s : string) : string :=
  match s with
  | EmptyString => EmptyString
  | String c s' =>
      match rstrip s' with
      | EmptyString => if is_space c then EmptyString else String c EmptyString
      | r => String c r
      end
  end.

(** [s.strip()], for an ASCII [s] *)
Definition strip (s : string) : string := rstrip (lstrip s).

(** [s.title()], for an ASCII [s]: a character that follows a cased
    character is lowercased, any other character is uppercased. *)
Fixpoint title_from (previous_is_cased : bool) (s : string) : string :=
  match s with
  | EmptyString => EmptyString
  | String c s' =>
      String (if previous_is_cased then lower_char c else upper_char c)
             (title_from (is_cased c) s')
  end.

Definition title (s : string) : string := title_from false s.

(** The truth value of a string: [not s] holds for the empty string only. *)
Definition is_empty (s : string) : bool :=
  match s with EmptyString => true | _ => false end.

(** [str(n)] for an integer. *)
Definition str (n : Z) : string := pretty n.

(** [s.isascii()]: every character is below 128. *)
Fixpoint is_ascii (s : string) : bool :=
  match s with
  | EmptyString => true
  | String c s' => (nat_of_ascii c <? 128)%nat && is_ascii s'
  end.

End Py.


(** ** Exceptions and results *)

(** The exceptions the program raises itself, and [Foreign] for whatever a
    collaborator raises. *)
Inductive exn : Type :=
| IndexError (msg : string)
| ValueError (msg : string)
| KeyError (key : string)
| Foreign (msg : string).

(** The outcome of a call: a value, a raised exception, or no return at
    all (a collaborator that hangs, a loop that does not end). *)
Inductive res (A : Type) : Type :=
| Ok (a : A)
| Raise (e : exn)
| Diverge.

Arguments Ok {A} a.
Arguments Raise {A} e.
Arguments Diverge {A}.

(** ** Calendar dates, as [datetime.date] and [dateutil.relativedelta]
    have them *)

Record date : Type := mkdate { year : Z; month : Z; day : Z }.

Module Calendar.

(** [calendar.isleap] *)
Definition isleap (y : Z) : bool :=
  (y mod 4 =? 0) && (negb (y mod 100 =? 0) || (y mod 400 =? 0)).

(** [calendar.monthrange(y, m)[1]]: the number of days of month [m]. *)
Definition days_in_month (y m : Z) : Z :=
  if m =? 2 then (if isleap y then 29 else 28)
  else if (m =? 4) || (m =? 6) || (m =? 9) || (m =? 11) then 30
  else 31.

(** The dates a [datetime.date] object can hold. *)
Definition valid_date (d : date) : bool :=
  (1 <=? year d) && (year d <=? 9999)
  && (1 <=? month d) && (month d <=? 12)
  && (1 <=? day d) && (day d <=? days_in_month (year d) (month d)).

(** [d1 < d2] and [d1 > d2] on dates. *)
Definition date_lt (d1 d2 : date) : bool :=
  (year d1 <? year d2)
  || ((year d1 =? year d2)
      && ((month d1 <? month d2)
          || ((month d1 =? month d2) && (day d1 <? day d2)))).

Definition date_gt (d1 d2 : date) : bool := date_lt d2 d1.

Definition date_le (d1 d2 : date) : bool := negb (date_lt d2 d1).

End Calendar.

(** [dateutil.relativedelta.relativedelta(dt1, dt2)] for two dates.  Only
    the year and month components are kept: they are what [.years] is
    computed from; the remaining days do not carry into them. *)
Module RelativeDelta.
Import Calendar.

Record t : Type := mk { years : Z; months : Z }.

(** [_set_months]: a month count is split into years and months, both
    of the sign of the count. *)
Definition set_months (m : Z) : t :=
  if 11 <? Z.abs m
  then let s := Z.sgn m in
       {| years := ((m * s) / 12) * s; months := ((m * s) mod 12) * s |}
  else {| years := 0; months := m |}.

(** [__radd__]: the delta added to a date.  The day is clamped to the
    length of the month reached; [date.replace] refuses a year outside
    1..9999. *)
Definition radd (rd : t) (dt : date) : res date :=
  let y := year dt + years rd in
  let m := month dt in
  let '(y, m) :=
    if months rd =? 0 then (y, m)
    else let m := m + months rd in
         if 12 <? m then (y + 1, m - 12)
         else if m <? 1 then (y - 1, m + 12)
         else (y, m) in
  let d := Z.min (days_in_month y m) (day dt) in
  if (1 <=? y) && (y <=? 9999)
  then Ok (mkdate y m d)
  else Raise (ValueError ("year " +:+ Py.str y +:+ " is out of range")).

(** The adjusting loop
    [while compare(dt1, dtm): months += increment; dtm = dt2 + months]. *)
Fixpoint adjust (fuel : nat) (compare : date -> date -> bool) (increment : Z)
    (dt1 dt2 : date) (m : Z) : res Z :=
  match radd (set_months m) dt2 with
  | Ok dtm =>
      if compare dt1 dtm
      then match fuel with
           | O => Diverge
           | S fuel' => adjust fuel' compare increment dt1 dt2 (m + increment)
           end
      else Ok m
  | Raise e => Raise e
  | Diverge => Diverge
  end.

Definition relativedelta (fuel : nat) (dt1 dt2 : date) : res t :=
  let m := (year dt1 - year dt2) * 12 + (month dt1 - month dt2) in
  let '(compare, increment) :=
    if date_lt dt1 dt2 then (date_gt, 1) else (date_lt, -1) in
  match adjust fuel compare increment dt1 dt2 m with
  | Ok m' => Ok (set_months m')
  | Raise e => Raise e
  | Diverge => Diverge
  end.

End RelativeDelta.

(** ** What the SPARQL client returns

    After [convert()], the answer is
    [{"results": {"bindings": [ {field: {"value": text, ...}, ...}, ... ]}}]:
    a sequence of bindings, each a dictionary from field names to
    dictionaries of sub-fields. *)

Abbreviation binding := (gmap string (gmap string string)).

Record QueryResult : Type := mkresult { bindings : list binding }.

(** ** The collaborators *)

Record Env : Type := mkenv {
  (** [self.sparql]: the outcome of sending a query to the endpoint *)
  sparql_query : string -> res QueryResult;
  (** [dateutil.parser.parse(text).date()] *)
  dateutil_parse : string -> res date;
  (** [datetime.date.today()] *)
  date_today : date;
  (** [str.lower], [str.strip] and [str.title] *)
  str_lower : string -> string;
  str_strip : string -> string;
  str_title : string -> string
}.

(** ** Computations that send queries

    A computation takes the log of the queries sent so far and gives its
    outcome with the log extended by the queries it sent. *)

Definition M (A : Type) : Type := list string -> res A * list string.

#[global] Instance M_ret : MRet M := fun A a log => (Ok a, log).

#[global] Instance M_bind : MBind M := fun A B k c log =>
  match c log with
  | (Ok a, log') => k a log'
  | (Raise e, log') => (Raise e, log')
  | (Diverge, log') => (Diverge, log')
  end.

Definition raise {A : Type} (e : exn) : M A := fun log => (Raise e, log).

(** A call of a collaborator that sends nothing. *)
Definition lift {A : Type} (r : res A) : M A := fun log => (r, log).

(** [d[k]] on a dictionary *)
Definition getitem {V : Type} (d : gmap string V) (k : string) : M V :=
  match d !! k with
  | Some v => mret v
  | None => raise (KeyError k)
  end.

(** [l[0]] on a list *)
Definition first {A : Type} (l : list A) : M A :=
  match l with
  | x :: _ => mret x
  | [] => raise (IndexError "list index out of range")
  end.

(** [k in d.keys()] *)
Definition has_key {V : Type} (k : string) (d : gmap string V) : bool :=
  bool_decide (is_Some (d !! k)).

(** The iterations granted to the adjusting loop of [relativedelta]
    ([adjust_valid] shows that one is enough). *)
Definition loop_fuel : nat := 12.

(** ** The class [Guru] *)

Definition dq : string := String "034"%char EmptyString.
Definition nl : string := String "010"%char EmptyString.
Definition indent : string := "                    ".

(** [Guru.person_query] (the f-string, line by line) *)
Definition person_query (person : string) : string :=
  "SELECT DISTINCT ?person ?personLabel ?date_of_birth ?date_of_death WHERE {" +:+ nl +:+
  indent +:+ "?person wdt:P31 wd:Q5;" +:+ nl +:+
  indent +:+ "wdt:P106 wd:Q82955;" +:+ nl +:+
  indent +:+ "wdt:P569 ?date_of_birth;" +:+ nl +:+
  indent +:+ "?label " +:+ dq +:+ person +:+ dq +:+ "@en." +:+ nl +:+
  indent +:+ "OPTIONAL {" +:+ nl +:+
  indent +:+ "?person wdt:P570 ?date_of_death.    " +:+ nl +:+
  indent +:+ "}" +:+ nl +:+
  indent +:+ "SERVICE wikibase:label { bd:serviceParam wikibase:language "
         +:+ dq +:+ "en" +:+ dq +:+ ". }" +:+ nl +:+
  indent +:+ "}".

(** [Guru.city_query] *)
Definition city_query (city : string) : string :=
  "SELECT DISTINCT ?city ?cityLabel ?population WHERE { " +:+ nl +:+
  indent +:+ "?city wdt:P31 wd:Q5119; " +:+ nl +:+
  indent +:+ "?label " +:+ dq +:+ city +:+ dq +:+ "@en. " +:+ nl +:+
  indent +:+ "OPTIONAL { ?city wdt:P1082 ?population. } " +:+ nl +:+
  indent +:+ "SERVICE wikibase:label { bd:serviceParam wikibase:language "
         +:+ dq +:+ "en" +:+ dq +:+ ". }" +:+ nl +:+
  indent +:+ "}".

Section Guru.

Variable env : Env.

(** [Guru.run_query]: the query is handed to the client and sent. *)
Definition run_query (query : string) : M QueryResult :=
  fun log => (sparql_query env query, (log ++ [query])%list).

(** [Guru.get_age] *)
Definition get_age (person : string) : M string :=
  let query := person_query person in
  results ← run_query query;
  let bindings_length := length (bindings results) in
  if (bindings_length =? 0)%nat then
    raise (IndexError (person +:+ " has not been found"))
  else if (1 <? bindings_length)%nat then
    raise (ValueError ("Ambiguous result. " +:+ Py.str (Z.of_nat bindings_length)
                       +:+ " records returned"))
  else
    b ← first (bindings results);
    if has_key "date_of_death" b then
      raise (ValueError (person +:+ " is dead"))
    else
      field ← getitem b "date_of_birth";
      dob_result ← getitem field "value";
      let today := date_today env in
      dob ← lift (dateutil_parse env dob_result);
      delta ← lift (RelativeDelta.relativedelta loop_fuel today dob);
      mret (Py.str (RelativeDelta.years delta)).

(** [Guru.get_population] *)
Definition get_population (city : string) : M string :=
  let query := city_query city in
  results ← run_query query;
  let bindings_length := length (bindings results) in
  if (bindings_length =? 0)%nat then
    raise (IndexError (city +:+ " has not been found"))
  else if (1 <? bindings_length)%nat then
    raise (ValueError ("Ambiguous result. " +:+ Py.str (Z.of_nat bindings_length)
                       +:+ " records returned"))
  else
    b ← first (bindings results);
    field ← getitem b "population";
    getitem field "value".

Definition age_question : string := "how old is ".
Definition population_question : string := "what is the population of ".

(** [Guru.ask] *)
Definition ask (question : string) : M string :=
  let question_lowercase := str_lower env question in
  if Py.contains age_question question_lowercase then
    let person := Py.replace age_question "" question_lowercase in
    if Py.is_empty person || Py.is_empty (str_strip env person) then
      raise (ValueError "Missing person's name")
    else
      get_age (str_title env (str_strip env person))
  else if Py.contains population_question question_lowercase then
    let city := Py.replace population_question "" question_lowercase in
    if Py.is_empty city || Py.is_empty (str_strip env city) then
      raise (ValueError "Missing city name")
    else
      get_population (str_title env (str_strip env city))
  else
    raise (ValueError ("Invalid question: " +:+ question)).

End Guru.

(** ** The text built-ins beyond ASCII

    Stand-ins for [str.lower], [str.strip] and [str.title] on UTF-8 text,
    for running the program: [strip] knows every white-space character;
    [lower] and [title] know the characters below 256 (one ASCII byte, or
    the byte 194 or 195 followed by one byte from 128 to 191) and pass any
    other byte on as it is. *)

Module Utf8.

(** The white-space characters of two bytes: U+0085 and U+00A0. *)
Definition is_space2 (c x : ascii) : bool :=
  (nat_of_ascii c =? 194)%nat
  && ((nat_of_ascii x =? 133)%nat || (nat_of_ascii x =? 160)%nat).

(** The white-space characters of three bytes: U+1680, U+2000..U+200A,
    U+2028, U+2029, U+202F, U+205F and U+3000. *)
Definition is_space3 (c x y : ascii) : bool :=
  let a := nat_of_ascii c in
  let b := nat_of_ascii x in
  let d := nat_of_ascii y in
  ((a =? 225)%nat && (b =? 154)%nat && (d =? 128)%nat)
  || ((a =? 226)%nat && (b =? 128)%nat
      && (((128 <=? d)%nat && (d <=? 138)%nat)
          || (d =? 168)%nat || (d =? 169)%nat || (d =? 175)%nat))
  || ((a =? 226)%nat && (b =? 129)%nat && (d =? 159)%nat)
  || ((a =? 227)%nat && (b =? 128)%nat && (d =? 128)%nat).

Fixpoint lstrip (s : string) : string :=
  match s with
  | EmptyString => EmptyString
  | String c s' =>
      if Py.is_space c then lstrip s'
      else match s' with
           | EmptyString => s
           | String x s'' =>
               if is_space2 c x then lstrip s''
               else match s'' with
                    | EmptyString => s
                    | String y s''' => if is_space3 c x y then lstrip s''' else s
                    end
           end
  end.

Fixpoint rstrip (s : string) : string :=
  match s with
  | EmptyString => EmptyString
  | String c s' =>
      match rstrip s' with
      | EmptyString => if Py.is_space c then EmptyString else String c EmptyString
      | String x EmptyString =>
          if is_space2 c x then EmptyString else String c (String x EmptyString)
      | String x (String y EmptyString) =>
          if is_space3 c x y then EmptyString
          else String c (String x (String y EmptyString))
      | r => String c r
      end
  end.

Definition strip (s : string) : string := rstrip (lstrip s).

(** The capital letters U+00C0..U+00DE, but for the sign U+00D7, are 32
    below their small letters. *)
Fixpoint lower_from (after_195 : bool) (s : string) : string :=
  match s with
  | EmptyString => EmptyString
  | String c s' =>
      let n := nat_of_ascii c in
      String (if after_195 && (128 <=? n)%nat && (n <=? 158)%nat
                 && negb (n =? 151)%nat
              then ascii_of_nat (n + 32)
              else Py.lower_char c)
             (lower_from (n =? 195)%nat s')
  end.

Definition lower (s : string) : string := lower_from false s.

(** The cased characters from 128 to 255: the letters U+00C0..U+00FF but
    for the signs U+00D7 and U+00F7, and U+00AA, U+00B5, U+00BA. *)
Definition is_cased2 (n x : nat) : bool :=
  if (n =? 195)%nat then negb ((x =? 151)%nat || (x =? 183)%nat)
  else (x =? 170)%nat || (x =? 181)%nat || (x =? 186)%nat.

Definition pair (n x : nat) : string :=
  String (ascii_of_nat n) (String (ascii_of_nat x) EmptyString).

(** The title-case form: the small letters go to their capitals, U+00DF
    to [Ss], U+00FF to U+0178 and U+00B5 to U+039C. *)
Definition title2 (n x : nat) : string :=
  if (n =? 195)%nat then
    if (x =? 159)%nat then "Ss"
    else if (x =? 191)%nat then pair 197 184
    else if (160 <=? x)%nat && (x <=? 190)%nat && negb (x =? 183)%nat
    then pair 195 (x - 32)
    else pair n x
  else if (x =? 181)%nat then pair 206 156
  else pair n x.

Definition lower2 (n x : nat) : string :=
  if (n =? 195)%nat && (128 <=? x)%nat && (x <=? 158)%nat && negb (x =? 151)%nat
  then pair 195 (x + 32)
  else pair n x.

Fixpoint title_from (previous_is_cased : bool) (s : string) : string :=
  match s with
  | EmptyString => EmptyString
  | String c s' =>
      let n := nat_of_ascii c in
      if (n =? 194)%nat || (n =? 195)%nat then
        match s' with
        | EmptyString => String c EmptyString
        | String x s'' =>
            (if previous_is_cased then lower2 n (nat_of_ascii x)
             else title2 n (nat_of_ascii x))
            +:+ title_from (is_cased2 n (nat_of_ascii x)) s''
        end
      else
        String (if previous_is_cased then Py.lower_char c else Py.upper_char c)
               (title_from (Py.is_cased c) s')
  end.

Definition title (s : string) : string := title_from false s.

(** U+00A0, the no-break space, and U+2003, the em space. *)
Definition nbsp : string := pair 194 160.
Definition em_space : string :=
  String (ascii_of_nat 226) (String (ascii_of_nat 128)
    (String (ascii_of_nat 131) EmptyString)).

End Utf8.

(** ** A fixture environment

    Deterministic stand-ins for the live knowledge base, the date parser
    and the clock, for running the program on concrete questions. *)

Module Fixture.

Definition digit (c : ascii) : option Z :=
  let n := nat_of_ascii c in
  if (48 <=? n)%nat && (n <=? 57)%nat then Some (Z.of_nat (n - 48)) else None.

Definition number (cs : list ascii) : option Z :=
  foldl (fun acc c => a ← acc; d ← digit c; Some (10 * a + d)) (Some 0) cs.

(** A parser for timestamps of the shape [YYYY-MM-DD...]. *)
Definition parse_iso (text : string) : res date :=
  match text with
  | String y1 (String y2 (String y3 (String y4 (String "-" (String m1
      (String m2 (String "-" (String d1 (String d2 _))))))))) =>
      match number [y1; y2; y3; y4], number [m1; m2], number [d1; d2] with
      | Some y, Some m, Some d =>
          if Calendar.valid_date (mkdate y m d) then Ok (mkdate y m d)
          else Raise (ValueError "day is out of range for month")
      | _, _, _ => Raise (ValueError ("Unknown string format: " +:+ text))
      end
  | _ => Raise (ValueError ("Unknown string format: " +:+ text))
  end.

Definition value (text : string) : gmap string string := {[ "value" := text ]}.

Definition person (dob : string) (dod : option string) : binding :=
  match dod with
  | Some d => {[ "date_of_birth" := value dob; "date_of_death" := value d ]}
  | None => {[ "date_of_birth" := value dob ]}
  end.

Definition city (population : option string) : binding :=
  match population with
  | Some p => {[ "population" := value p ]}
  | None => ∅
  end.

Definition table : list (string * list binding) :=
  [ (person_query "Tony Blair", [person "1953-05-06T00:00:00Z" None]);
    (person_query "Barack Obama", [person "1961-08-04T00:00:00Z" None]);
    (person_query "Abraham Lincoln",
       [person "1809-02-12T00:00:00Z" (Some "1865-04-15T00:00:00Z")]);
    (person_query "Lincoln",
       [person "1809-02-12T00:00:00Z" (Some "1865-04-15T00:00:00Z");
        person "1932-01-01T00:00:00Z" None]);
    (person_query "Time Traveller", [person "2030-01-01T00:00:00Z" None]);
    (city_query "London", [city (Some "8799728")]);
    (city_query "Paris", [city (Some "2145906")]);
    (city_query "Berlin", [city None]);
    (city_query "Springfield", [city (Some "1"); city (Some "2"); city None]) ].

Fixpoint lookup_query (t : list (string * list binding)) (query : string)
    : list binding :=
  match t with
  | [] => []
  | (q, bs) :: t' => if String.eqb q query then bs else lookup_query t' query
  end.

Definition client (query : string) : res QueryResult :=
  Ok (mkresult (lookup_query table query)).

Definition env : Env :=
  {| sparql_query := client;
     dateutil_parse := parse_iso;
     date_today := mkdate 2023 9 1;
     str_lower := Utf8.lower;
     str_strip := Utf8.strip;
     str_title := Utf8.title |}.

End Fixture.


(** ** Stub environments

    A client that gives the same outcome to every query, for running the
    resolvers on a chosen answer of the knowledge base. *)

Module Stub.

Definition env (answer : res QueryResult) (today : date) : Env :=
  {| sparql_query := fun _ => answer;
     dateutil_parse := Fixture.parse_iso;
     date_today := today;
     str_lower := Utf8.lower;
     str_strip := Utf8.strip;
     str_title := Utf8.title |}.

(** One binding, from its fields. *)
Definition one (b : binding) : res QueryResult := Ok (mkresult [b]).

End Stub.

(** ** The vocabulary of the specification *)

Module Spec.

(** The two question kinds. *)
Inductive kind : Type := Age | Population.

Definition prefix (k : kind) : string :=
  match k with
  | Age => age_question
  | Population => population_question
  end.

(** The resolver of a kind, and the query it builds. *)
Definition resolver (env : Env) (k : kind) : string -> M string :=
  match k with
  | Age => get_age env
  | Population => get_population env
  end.

Definition build_query (k : kind) : string -> string :=
  match k with
  | Age => person_query
  | Population => city_query
  end.

Definition missing_subject (k : kind) : string :=
  match k with
  | Age => "Missing person's name"
  | Population => "Missing city name"
  end.

(** [sub] occurs somewhere in [s]. *)
Definition occurs_in (sub s : string) : Prop :=
  exists pre post : string, s = pre +:+ sub +:+ post.

(** Empty or made of ASCII white space only. *)
Fixpoint whitespace_only (s : string) : bool :=
  match s with
  | EmptyString => true
  | String c s' => Py.is_space c && whitespace_only s'
  end.

(** The router's test [not s or not s.strip()]: the text is empty, or
    white space only. *)
Definition blank (env : Env) (s : string) : bool :=
  Py.is_empty s || Py.is_empty (str_strip env s).

(** The subject of a question of kind [k]: the lowercased text without
    the prefix phrase, trimmed and title-cased. *)
Definition remainder (env : Env) (k : kind) (question : string) : string :=
  Py.replace (prefix k) "" (str_lower env question).

Definition subject (env : Env) (k : kind) (question : string) : string :=
  str_title env (str_strip env (remainder env k question)).

(** The kind the router gives a question: the age prefix is looked for
    first. *)
Definition kind_of (env : Env) (question : string) : option kind :=
  if Py.contains age_question (str_lower env question) then Some Age
  else if Py.contains population_question (str_lower env question)
  then Some Population
  else None.

(** The question matches kind [k]: its lowercased text holds the prefix
    of the kind and, the age prefix being looked for first, a population
    question does not hold the age prefix. *)
Definition matches (env : Env) (k : kind) (question : string) : Prop :=
  match k with
  | Age => occurs_in age_question (str_lower env question)
  | Population =>
      occurs_in population_question (str_lower env question)
      /\ ~ occurs_in age_question (str_lower env question)
  end.

(** A question is routed to kind [k] when [ask] treats it the way that
    kind is treated: the missing-subject failure of the kind when there is
    no subject, the resolver of the kind on the subject otherwise. *)
Definition routed (env : Env) (k : kind) (question : string) : Prop :=
  ask env question
  = if blank env (remainder env k question)
    then raise (ValueError (missing_subject k))
    else resolver env k (subject env k question).

(** A byte that white space can hold: an ASCII white-space character, or
    a byte of a character outside ASCII. *)
Definition soft (c : ascii) : bool :=
  Py.is_space c || (128 <=? nat_of_ascii c)%nat.

Fixpoint soft_only (s : string) : bool :=
  match s with
  | EmptyString => true
  | String c s' => soft c && soft_only s'
  end.

(** What the text built-ins of Python do with ASCII: on ASCII text they
    are the functions of [Py]; a run of ASCII characters is lowercased
    the same way wherever it stands; and a text that [strip] empties has
    no ASCII character but white space. *)
Record lawful (env : Env) : Prop := {
  lower_ascii : forall s, Py.is_ascii s = true -> str_lower env s = Py.lower s;
  strip_ascii : forall s, Py.is_ascii s = true -> str_strip env s = Py.strip s;
  title_ascii : forall s, Py.is_ascii s = true -> str_title env s = Py.title s;
  lower_within : forall pre mid post, Py.is_ascii mid = true ->
    exists pre' post',
      str_lower env (pre +:+ mid +:+ post) = pre' +:+ Py.lower mid +:+ post';
  strip_empty : forall s, str_strip env s = "" -> soft_only s = true
}.

(** The last character of the text [String c s]. *)
Fixpoint last_char (c : ascii) (s : string) : ascii :=
  match s with
  | EmptyString => c
  | String c' s' => last_char c' s'
  end.

(** Not empty, and no ASCII white space at either end. *)
Definition trimmed (s : string) : bool :=
  match s with
  | EmptyString => false
  | String c s' => negb (Py.is_space c) && negb (Py.is_space (last_char c s'))
  end.

(** ASCII title case: no letter that follows a letter is a capital, and no
    other letter is a small letter. *)
Fixpoint title_cased_from (previous_is_cased : bool) (s : string) : bool :=
  match s with
  | EmptyString => true
  | String c s' =>
      negb (if previous_is_cased then Py.is_upper c else Py.is_lower c)
      && title_cased_from (Py.is_cased c) s'
  end.

Definition title_cased (s : string) : bool := title_cased_from false s.

(** The queries a computation sends when started with the log [log]. *)
Definition sent {A : Type} (c : M A) (log : list string) : list string :=
  drop (length log) (snd (c log)).

(** The anniversary of [dob] in year [y]; that of a 29 February falls on
    28 February in a year that is not leap. *)
Definition anniversary (y : Z) (dob : date) : date :=
  mkdate y (month dob) (Z.min (Calendar.days_in_month y (month dob)) (day dob)).

(** Whole years from [dob] to [today]: the difference of the years, less
    one when this year's anniversary is still to come. *)
Definition whole_years (today dob : date) : Z :=
  year today - year dob
  - (if Calendar.date_lt today (anniversary (year today) dob) then 1 else 0).

End Spec.

(** * Properties *)

(** ** Running the model on the questions of the test suite *)

Example lower_ex : Py.lower "What IS the Population" = "what is the population".
Proof. reflexivity. Qed.
Example replace_ex : Py.replace "ab" "" "xabyababz" = "xyz".
Proof. reflexivity. Qed.
Example replace_ex2 : Py.replace "aa" "b" "aaaaa" = "bba".
Proof. reflexivity. Qed.
Example strip_ex : Py.strip "  tony  blair  " = "tony  blair".
Proof. reflexivity. Qed.
Example title_ex : Py.title "tony o'neil 3rd" = "Tony O'Neil 3Rd".
Proof. reflexivity. Qed.
Example str_ex : Py.str (-3) = "-3" /\ Py.str 0 = "0" /\ Py.str 120 = "120".
Proof. vm_compute. auto. Qed.
Example relativedelta_ex1 :
  RelativeDelta.relativedelta 2 (mkdate 2023 9 1) (mkdate 1953 5 6)
  = Ok (RelativeDelta.mk 70 3).
Proof. reflexivity. Qed.
Example relativedelta_ex2 :
  RelativeDelta.relativedelta 2 (mkdate 2001 2 28) (mkdate 2000 2 29)
  = Ok (RelativeDelta.mk 1 0).
Proof. reflexivity. Qed.
Example relativedelta_ex3 :
  RelativeDelta.relativedelta 2 (mkdate 2026 11 4) (mkdate 2030 1 1)
  = Ok (RelativeDelta.mk (-3) (-1)).
Proof. reflexivity. Qed.
Example relativedelta_ex4 :
  RelativeDelta.relativedelta 2 (mkdate 2023 5 5) (mkdate 1953 5 6)
  = Ok (RelativeDelta.mk 69 11).
Proof. reflexivity. Qed.

Example utf8_lower_ex : Utf8.lower "ÉMILE Zola" = "émile zola".
Proof. reflexivity. Qed.

Example utf8_strip_ex :
  Utf8.strip (Utf8.nbsp +:+ " tony blair" +:+ Utf8.em_space) = "tony blair".
Proof. reflexivity. Qed.

Example utf8_title_ex : Utf8.title "françois hollande" = "François Hollande".
Proof. reflexivity. Qed.

Example ask_tony_blair :
  ask Fixture.env "how old is Tony Blair" []
  = (Ok "70", [person_query "Tony Blair"]).
Proof. vm_compute. reflexivity. Qed.

Example ask_barack_obama :
  fst (ask Fixture.env "how old is   Barack Obama" []) = Ok "62".
Proof. vm_compute. reflexivity. Qed.

Example ask_lincoln :
  fst (ask Fixture.env "how old is Lincoln" [])
  = Raise (ValueError "Ambiguous result. 2 records returned").
Proof. vm_compute. reflexivity. Qed.

Example ask_abraham_lincoln :
  fst (ask Fixture.env "how old is Abraham Lincoln" [])
  = Raise (ValueError "Abraham Lincoln is dead").
Proof. vm_compute. reflexivity. Qed.

Example ask_london :
  fst (ask Fixture.env "what is the population of lOndon" []) = Ok "8799728".
Proof. vm_compute. reflexivity. Qed.

Example ask_narnia :
  fst (ask Fixture.env "what is the population of Narnia" [])
  = Raise (IndexError "Narnia has not been found").
Proof. vm_compute. reflexivity. Qed.

(** ** Text lemmas *)

Section Text.
Import Py Spec.

Lemma startswith_app (p s : string) : startswith p (p +:+ s) = true.
Proof.
  induction p as [|a p IH]; simpl; [reflexivity|].
  rewrite Ascii.eqb_refl. exact IH.
Qed.

Lemma startswith_inv (p s : string) :
  startswith p s = true -> exists post, s = p +:+ post.
Proof.
  revert s. induction p as [|a p IH]; intros s H; simpl in *.
  - exists s. reflexivity.
  - destruct s as [|b s]; [discriminate|].
    apply andb_prop in H as [Hab Hps].
    apply Ascii.eqb_eq in Hab. subst b.
    destruct (IH _ Hps) as [post ->]. exists post. reflexivity.
Qed.

Lemma app_assoc_s (a b c : string) : (a +:+ b) +:+ c = a +:+ (b +:+ c).
Proof. induction a as [|x a IH]; simpl; [reflexivity|]. now rewrite IH. Qed.

(** [contains] is the substring test. *)
Lemma contains_spec (sub s : string) :
  contains sub s = true <-> occurs_in sub s.
Proof.
  split.
  - induction s as [|c s IH]; simpl; intros H.
    + rewrite orb_false_r in H. apply startswith_inv in H as [post E].
      exists "", post. exact E.
    + apply orb_prop in H as [H|H].
      * apply startswith_inv in H as [post E]. exists "", post. exact E.
      * destruct (IH H) as (pre & post & ->).
        exists (String c pre), post. reflexivity.
  - intros (pre & post & ->). induction pre as [|c pre IH].
    + simpl ("" +:+ _). destruct (sub +:+ post) eqn:E; simpl;
        rewrite <- E, startswith_app; reflexivity.
    + simpl. rewrite IH. apply orb_true_r.
Qed.

Lemma lower_app (a b : string) : lower (a +:+ b) = lower a +:+ lower b.
Proof. induction a as [|x a IH]; simpl; [reflexivity|]. now rewrite IH. Qed.

Lemma lstrip_whitespace (s : string) :
  whitespace_only s = true -> lstrip s = "".
Proof.
  induction s as [|c s IH]; simpl; [reflexivity|].
  intros H. apply andb_prop in H as [Hc Hs]. rewrite Hc. auto.
Qed.

Lemma whitespace_lstrip (s : string) :
  whitespace_only (lstrip s) = whitespace_only s.
Proof.
  induction s as [|c s IH]; simpl; [reflexivity|].
  destruct (is_space c) eqn:Hc; simpl; [exact IH|].
  rewrite Hc. reflexivity.
Qed.

Lemma rstrip_empty (s : string) :
  is_empty (rstrip s) = whitespace_only s.
Proof.
  induction s as [|c s IH]; simpl; [reflexivity|].
  destruct (rstrip s) eqn:E; simpl in IH; rewrite <- IH.
  - destruct (is_space c); reflexivity.
  - simpl. now rewrite andb_false_r.
Qed.

(** The router's test [not s or not s.strip()] holds exactly of the texts
    that are empty or white space only. *)
Lemma blank_spec (s : string) :
  is_empty s || is_empty (strip s) = whitespace_only s.
Proof.
  unfold strip. rewrite rstrip_empty, whitespace_lstrip.
  destruct s; reflexivity.
Qed.

Lemma replace_from_skip (old new t s : string) :
  replace_from old new (String.length t) (t +:+ s) = replace_from old new 0 s.
Proof. induction t as [|c t IH]; simpl; [reflexivity|exact IH]. Qed.

(** Where the text starts with [old], [new] is written and the scan goes
    on after the occurrence. *)
Lemma replace_app_old (old new s : string) :
  old <> "" -> replace old new (old +:+ s) = new +:+ replace old new s.
Proof.
  intros Hne. destruct old as [|a old]; [congruence|].
  unfold replace.
  change (String a old +:+ s) with (String a (old +:+ s)).
  cbn [replace_from].
  change (String a (old +:+ s)) with (String a old +:+ s).
  rewrite startswith_app.
  cbn [String.length]. rewrite Nat.sub_1_r. cbn [Nat.pred].
  now rewrite replace_from_skip.
Qed.

Lemma replace_no_match (old new : string) (c : ascii) (s : string) :
  startswith old (String c s) = false ->
  replace old new (String c s) = String c (replace old new s).
Proof. intros H. unfold replace. cbn [replace_from]. now rewrite H. Qed.

Lemma app_length_s (a b : string) :
  String.length (a +:+ b) = (String.length a + String.length b)%nat.
Proof. induction a as [|x a IH]; simpl; [reflexivity|]. now rewrite IH. Qed.

(** A text of which only soft bytes are left once the population prefix
    is removed is made of such bytes and copies of that prefix: the age
    prefix cannot occur in it, for no [h] of it is followed by an [o]. *)
Lemma soft_remainder_excludes_age (s : string) :
  soft_only (replace population_question "" s) = true ->
  contains age_question s = false.
Proof.
  remember (String.length s) as n eqn:Hn.
  assert (Hle : (String.length s <= n)%nat) by lia. clear Hn.
  revert s Hle. induction n as [|n IH]; intros s Hle Hblank.
  - destruct s; [reflexivity|simpl in Hle; lia].
  - destruct s as [|c s]; [reflexivity|].
    destruct (startswith population_question (String c s)) eqn:Hstart.
    + apply startswith_inv in Hstart as [post E]. rewrite E in *.
      rewrite replace_app_old in Hblank by discriminate.
      simpl ("" +:+ _) in Hblank.
      rewrite app_length_s in Hle. simpl in Hle.
      assert (Hpost : contains age_question post = false)
        by (apply IH; [lia|exact Hblank]).
      unfold age_question, population_question in *.
      simpl. exact Hpost.
    + rewrite replace_no_match in Hblank by exact Hstart.
      simpl in Hblank. apply andb_prop in Hblank as [Hc Hrest].
      simpl in Hle.
      assert (Hs : contains age_question s = false)
        by (apply IH; [lia|exact Hrest]).
      change (contains age_question (String c s))
        with (startswith age_question (String c s) || contains age_question s).
      rewrite Hs, orb_false_r.
      unfold age_question. cbn [startswith].
      destruct (Ascii.eqb "h" c) eqn:Eh; [|reflexivity].
      apply Ascii.eqb_eq in Eh. subst c. discriminate Hc.
Qed.

(** *** ASCII text stays ASCII *)

Lemma is_ascii_lower_char (c : ascii) :
  (nat_of_ascii (lower_char c) <? 128)%nat = (nat_of_ascii c <? 128)%nat.
Proof. destruct c as [[] [] [] [] [] [] [] []]; reflexivity. Qed.

Lemma is_ascii_lower (s : string) : is_ascii (lower s) = is_ascii s.
Proof.
  induction s as [|c s IH]; simpl; [reflexivity|].
  now rewrite is_ascii_lower_char, IH.
Qed.

Lemma is_ascii_replace_from (old : string) (k : nat) (s : string) :
  is_ascii s = true -> is_ascii (replace_from old "" k s) = true.
Proof.
  revert k. induction s as [|c s IH]; intros k H; [reflexivity|].
  simpl in H. apply andb_prop in H as [Hc Hs].
  cbn [replace_from]. destruct k as [|k]; [|now apply IH].
  destruct (startswith old (String c s)).
  - simpl ("" +:+ _). now apply IH.
  - simpl. rewrite Hc. now apply IH.
Qed.

Lemma is_ascii_lstrip (s : string) :
  is_ascii s = true -> is_ascii (lstrip s) = true.
Proof.
  induction s as [|c s IH]; intros H; [reflexivity|].
  simpl. destruct (is_space c); [|exact H].
  simpl in H. apply andb_prop in H as [_ Hs]. now apply IH.
Qed.

Lemma is_ascii_rstrip (s : string) :
  is_ascii s = true -> is_ascii (rstrip s) = true.
Proof.
  induction s as [|c s IH]; intros H; [reflexivity|].
  simpl in H. apply andb_prop in H as [Hc Hs].
  specialize (IH Hs). simpl. destruct (rstrip s) as [|x r].
  - destruct (is_space c); [reflexivity|]. simpl. now rewrite Hc.
  - change (is_ascii (String c (String x r)))
      with ((nat_of_ascii c <? 128)%nat && is_ascii (String x r)).
    now rewrite Hc, IH.
Qed.

Lemma is_ascii_strip (s : string) :
  is_ascii s = true -> is_ascii (strip s) = true.
Proof. intros H. unfold strip. now apply is_ascii_rstrip, is_ascii_lstrip. Qed.

End Text.

(** ** The built-ins of the fixture are lawful *)

Section Builtins.
Import Py Spec.

Lemma ascii_not_space2 (c x : ascii) :
  (nat_of_ascii c <? 128)%nat = true -> Utf8.is_space2 c x = false.
Proof.
  intros H. apply Nat.ltb_lt in H. unfold Utf8.is_space2.
  replace (nat_of_ascii c =? 194)%nat with false
    by (symmetry; apply Nat.eqb_neq; lia).
  reflexivity.
Qed.

Lemma ascii_not_space3 (c x y : ascii) :
  (nat_of_ascii c <? 128)%nat = true -> Utf8.is_space3 c x y = false.
Proof.
  intros H. apply Nat.ltb_lt in H. unfold Utf8.is_space3. cbv zeta.
  replace (nat_of_ascii c =? 225)%nat with false
    by (symmetry; apply Nat.eqb_neq; lia).
  replace (nat_of_ascii c =? 226)%nat with false
    by (symmetry; apply Nat.eqb_neq; lia).
  replace (nat_of_ascii c =? 227)%nat with false
    by (symmetry; apply Nat.eqb_neq; lia).
  reflexivity.
Qed.

Lemma utf8_lstrip_ascii (s : string) :
  is_ascii s = true -> Utf8.lstrip s = lstrip s.
Proof.
  induction s as [|c s IH]; intros H; [reflexivity|].
  simpl in H. apply andb_prop in H as [Hc Hs].
  cbn [Utf8.lstrip lstrip]. destruct (is_space c); [now apply IH|].
  destruct s as [|x s]; [reflexivity|].
  rewrite (ascii_not_space2 c x Hc).
  destruct s as [|y s]; [reflexivity|].
  now rewrite (ascii_not_space3 c x y Hc).
Qed.

Lemma utf8_rstrip_ascii (s : string) :
  is_ascii s = true -> Utf8.rstrip s = rstrip s.
Proof.
  induction s as [|c s IH]; intros H; [reflexivity|].
  simpl in H. apply andb_prop in H as [Hc Hs].
  cbn [Utf8.rstrip rstrip]. rewrite (IH Hs).
  destruct (rstrip s) as [|x [|y [|z r]]]; try reflexivity.
  - now rewrite (ascii_not_space2 c x Hc).
  - now rewrite (ascii_not_space3 c x y Hc).
Qed.

Lemma utf8_strip_ascii (s : string) :
  is_ascii s = true -> Utf8.strip s = strip s.
Proof.
  intros H. unfold Utf8.strip, strip.
  rewrite (utf8_lstrip_ascii s H).
  apply utf8_rstrip_ascii, is_ascii_lstrip, H.
Qed.

Lemma utf8_lower_from_ascii (b : bool) (s : string) :
  is_ascii s = true -> Utf8.lower_from b s = lower s.
Proof.
  revert b. induction s as [|c s IH]; intros b H; [reflexivity|].
  simpl in H. apply andb_prop in H as [Hc Hs].
  cbn [Utf8.lower_from lower]. cbv zeta.
  apply Nat.ltb_lt in Hc.
  replace (128 <=? nat_of_ascii c)%nat with false
    by (symmetry; apply Nat.leb_gt; lia).
  rewrite andb_false_r. cbn [andb]. f_equal. now apply IH.
Qed.

Lemma utf8_lower_from_app (b : bool) (a t : string) :
  exists b', Utf8.lower_from b (a +:+ t)
             = Utf8.lower_from b a +:+ Utf8.lower_from b' t.
Proof.
  revert b. induction a as [|c a IH]; intros b.
  - exists b. reflexivity.
  - destruct (IH (nat_of_ascii c =? 195)%nat) as [b' E].
    exists b'. simpl. cbv zeta. now rewrite E.
Qed.

Lemma utf8_title_from_ascii (b : bool) (s : string) :
  is_ascii s = true -> Utf8.title_from b s = title_from b s.
Proof.
  revert b. induction s as [|c s IH]; intros b H; [reflexivity|].
  simpl in H. apply andb_prop in H as [Hc Hs].
  cbn [Utf8.title_from title_from]. cbv zeta.
  apply Nat.ltb_lt in Hc.
  replace (nat_of_ascii c =? 194)%nat with false
    by (symmetry; apply Nat.eqb_neq; lia).
  replace (nat_of_ascii c =? 195)%nat with false
    by (symmetry; apply Nat.eqb_neq; lia).
  cbn [orb]. f_equal. now apply IH.
Qed.

Lemma soft_from_128 (c : ascii) : (128 <= nat_of_ascii c)%nat -> soft c = true.
Proof.
  intros H. unfold soft. apply orb_true_iff. right. now apply Nat.leb_le.
Qed.

Lemma soft_space (c : ascii) : is_space c = true -> soft c = true.
Proof. intros H. unfold soft. now rewrite H. Qed.

Lemma soft_space2 (c x : ascii) :
  Utf8.is_space2 c x = true -> soft c = true /\ soft x = true.
Proof.
  unfold Utf8.is_space2. rewrite andb_true_iff, orb_true_iff, !Nat.eqb_eq.
  intros [Hc Hx]. split; apply soft_from_128; lia.
Qed.

Lemma soft_space3 (c x y : ascii) :
  Utf8.is_space3 c x y = true -> soft c = true /\ soft x = true /\ soft y = true.
Proof.
  unfold Utf8.is_space3. cbv zeta.
  rewrite !orb_true_iff, !andb_true_iff, !orb_true_iff, !andb_true_iff,
    !Nat.eqb_eq, !Nat.leb_le.
  intros H. repeat split; apply soft_from_128; lia.
Qed.

Lemma soft_rstrip (s : string) : soft_only (Utf8.rstrip s) = soft_only s.
Proof.
  induction s as [|c s IH]; [reflexivity|].
  cbn [Utf8.rstrip]. cbn [soft_only]. rewrite <- IH.
  destruct (Utf8.rstrip s) as [|x [|y [|z r]]]; try reflexivity.
  - destruct (is_space c) eqn:Hc; simpl.
    + now rewrite (soft_space c Hc).
    + now rewrite andb_true_r.
  - destruct (Utf8.is_space2 c x) eqn:H2; [|reflexivity].
    destruct (soft_space2 c x H2) as [Sc Sx]. simpl. now rewrite Sc, Sx.
  - destruct (Utf8.is_space3 c x y) eqn:H3; [|reflexivity].
    destruct (soft_space3 c x y H3) as (Sc & Sx & Sy). simpl.
    now rewrite Sc, Sx, Sy.
Qed.

Lemma soft_lstrip (s : string) : soft_only (Utf8.lstrip s) = soft_only s.
Proof.
  remember (String.length s) as n eqn:Hn.
  assert (Hle : (String.length s <= n)%nat) by lia. clear Hn.
  revert s Hle. induction n as [|n IH]; intros s Hle.
  - destruct s; [reflexivity|simpl in Hle; lia].
  - destruct s as [|c s]; [reflexivity|]. simpl in Hle.
    cbn [Utf8.lstrip]. destruct (is_space c) eqn:Hc.
    + rewrite IH by lia. simpl. now rewrite (soft_space c Hc).
    + destruct s as [|x s]; [reflexivity|]. simpl in Hle.
      destruct (Utf8.is_space2 c x) eqn:H2.
      * destruct (soft_space2 c x H2) as [Sc Sx].
        rewrite IH by lia. simpl. now rewrite Sc, Sx.
      * destruct s as [|y s]; [reflexivity|]. simpl in Hle.
        destruct (Utf8.is_space3 c x y) eqn:H3; [|reflexivity].
        destruct (soft_space3 c x y H3) as (Sc & Sx & Sy).
        rewrite IH by lia. simpl. now rewrite Sc, Sx, Sy.
Qed.

(** An environment whose built-ins are those of [Utf8] is lawful. *)
Lemma utf8_lawful (env : Env) :
  str_lower env = Utf8.lower ->
  str_strip env = Utf8.strip ->
  str_title env = Utf8.title ->
  lawful env.
Proof.
  intros El Es Et. split.
  - intros s H. rewrite El. now apply utf8_lower_from_ascii.
  - intros s H. rewrite Es. now apply utf8_strip_ascii.
  - intros s H. rewrite Et. now apply utf8_title_from_ascii.
  - intros pre mid post H. rewrite El. unfold Utf8.lower.
    destruct (utf8_lower_from_app false pre (mid +:+ post)) as [b1 E1].
    destruct (utf8_lower_from_app b1 mid post) as [b2 E2].
    exists (Utf8.lower_from false pre), (Utf8.lower_from b2 post).
    now rewrite E1, E2, (utf8_lower_from_ascii b1 mid H).
  - intros s H. rewrite Es in H. unfold Utf8.strip in H.
    now rewrite <- soft_lstrip, <- soft_rstrip, H.
Qed.

Lemma fixture_lawful : lawful Fixture.env.
Proof. now apply utf8_lawful. Qed.

Lemma stub_lawful (answer : res QueryResult) (today : date) :
  lawful (Stub.env answer today).
Proof. now apply utf8_lawful. Qed.

End Builtins.

(** ** The router *)

Section Router.
Import Py Spec.

Variable env : Env.

Lemma kind_of_age (q : string) :
  occurs_in age_question (str_lower env q) -> kind_of env q = Some Age.
Proof.
  intros H. apply contains_spec in H. unfold kind_of. now rewrite H.
Qed.

Lemma kind_of_population (q : string) :
  occurs_in population_question (str_lower env q) ->
  ~ occurs_in age_question (str_lower env q) ->
  kind_of env q = Some Population.
Proof.
  intros Hp Ha. apply contains_spec in Hp. unfold kind_of. rewrite Hp.
  destruct (contains age_question (str_lower env q)) eqn:E; [|reflexivity].
  exfalso. apply Ha, contains_spec, E.
Qed.

Lemma kind_of_none (q : string) :
  ~ occurs_in age_question (str_lower env q) ->
  ~ occurs_in population_question (str_lower env q) ->
  kind_of env q = None.
Proof.
  intros Ha Hp. unfold kind_of.
  destruct (contains age_question (str_lower env q)) eqn:Ea.
  - exfalso. apply Ha, contains_spec, Ea.
  - destruct (contains population_question (str_lower env q)) eqn:Ep; [|reflexivity].
    exfalso. apply Hp, contains_spec, Ep.
Qed.

Lemma matches_kind_of (k : kind) (q : string) :
  matches env k q -> kind_of env q = Some k.
Proof.
  destruct k; simpl.
  - apply kind_of_age.
  - intros [Hp Ha]. now apply kind_of_population.
Qed.

(** [ask], read by the kind of the question. *)
Lemma ask_by_kind (q : string) :
  ask env q
  = match kind_of env q with
    | Some k =>
        if blank env (remainder env k q)
        then raise (ValueError (missing_subject k))
        else resolver env k (subject env k q)
    | None => raise (ValueError ("Invalid question: " +:+ q))
    end.
Proof.
  unfold ask, kind_of, subject, remainder, blank.
  destruct (contains age_question (str_lower env q)); simpl.
  - reflexivity.
  - destruct (contains population_question (str_lower env q)); reflexivity.
Qed.

Lemma routed_kind (q : string) (k : kind) : kind_of env q = Some k -> routed env k q.
Proof. intros H. unfold routed. now rewrite ask_by_kind, H. Qed.

(** *** With lawful built-ins *)

Hypothesis Hlaw : lawful env.

Lemma is_ascii_prefix (k : kind) : is_ascii (prefix k) = true.
Proof. destruct k; reflexivity. Qed.

Lemma ascii_kind_of (q : string) :
  is_ascii q = true ->
  kind_of env q
  = if contains age_question (lower q) then Some Age
    else if contains population_question (lower q) then Some Population
    else None.
Proof. intros H. unfold kind_of. now rewrite (lower_ascii env Hlaw q H). Qed.

Lemma ascii_remainder (k : kind) (q : string) :
  is_ascii q = true ->
  remainder env k q = replace (prefix k) "" (lower q)
  /\ is_ascii (remainder env k q) = true.
Proof.
  intros H. unfold remainder. rewrite (lower_ascii env Hlaw q H).
  split; [reflexivity|].
  apply is_ascii_replace_from. now rewrite is_ascii_lower.
Qed.

Lemma ascii_blank (s : string) :
  is_ascii s = true -> blank env s = whitespace_only s.
Proof.
  intros H. unfold blank. rewrite (strip_ascii env Hlaw s H). apply blank_spec.
Qed.

Lemma ascii_subject (k : kind) (q : string) :
  is_ascii q = true ->
  subject env k q = title (strip (replace (prefix k) "" (lower q))).
Proof.
  intros H. destruct (ascii_remainder k q H) as [Er Ha].
  unfold subject.
  rewrite (strip_ascii env Hlaw _ Ha), Er.
  apply (title_ascii env Hlaw), is_ascii_strip.
  now rewrite <- Er.
Qed.

(** A run of the question that is a prefix in some casing shows in the
    lowercased question as the prefix. *)
Lemma lawful_occurs (k : kind) (pre mid post : string) :
  lower mid = prefix k ->
  occurs_in (prefix k) (str_lower env (pre +:+ mid +:+ post)).
Proof.
  intros Hmid.
  assert (Ha : is_ascii mid = true)
    by (rewrite <- is_ascii_lower, Hmid; apply is_ascii_prefix).
  destruct (lower_within env Hlaw pre mid post Ha) as (pre' & post' & E).
  exists pre', post'. now rewrite E, Hmid.
Qed.

(** A text that is blank once the population prefix is removed does not
    hold the age prefix. *)
Lemma blank_excludes_age (s : string) :
  blank env (replace population_question "" s) = true ->
  contains age_question s = false.
Proof.
  intros H. apply soft_remainder_excludes_age.
  unfold blank in H. apply orb_prop in H as [H|H].
  - destruct (replace population_question "" s); [reflexivity|discriminate].
  - apply (strip_empty env Hlaw).
    destruct (str_strip env (replace population_question "" s));
      [reflexivity|discriminate].
Qed.

End Router.

(** ** The resolvers *)

Section Resolvers.
Import Py Spec.

Variable env : Env.

(** Evaluating a resolver: expose the client's answer, then the checks. *)
Ltac run_resolver :=
  unfold get_age, get_population, run_query, mbind, M_bind, raise, lift,
    first, getitem, mret, M_ret;
  simpl.

(** A resolver sends its query, and nothing else, whatever comes back. *)
Lemma resolver_log (k : kind) (subject : string) (log : list string) :
  snd (resolver env k subject log) = (log ++ [build_query k subject])%list.
Proof.
  destruct k; simpl; run_resolver;
    repeat (match goal with
            | |- context [match ?x with _ => _ end] =>
                lazymatch x with
                | context [match _ with _ => _ end] => fail
                | _ => destruct x; simpl
                end
            end);
    reflexivity.
Qed.

Lemma sent_resolver (k : kind) (subject : string) (log : list string) :
  sent (resolver env k subject) log = [build_query k subject].
Proof.
  unfold sent. rewrite resolver_log. apply drop_app_length.
Qed.

Lemma sent_raise {A : Type} (e : exn) (log : list string) :
  sent (@raise A e) log = [].
Proof. unfold sent, raise. simpl. apply drop_all. Qed.

(** The two templates never give the same query. *)
Lemma person_query_not_city_query (person city : string) :
  person_query person <> city_query city.
Proof. unfold person_query, city_query. simpl. discriminate. Qed.

(** C1. Whatever the question kind, a result with no binding makes the
    resolver fail with the not-found condition naming the subject, and a
    result with more than one binding makes it fail with the ambiguity
    condition citing the number of bindings; in neither case is an answer
    produced.  The statement is the same for the two kinds: it is made for
    an arbitrary kind [k]. *)
Theorem resolver_rejects_empty_and_ambiguous
    (k : kind) (subject : string) (log : list string) (qr : QueryResult) :
  sparql_query env (build_query k subject) = Ok qr ->
  let n := length (bindings qr) in
  (n = 0%nat ->
     fst (resolver env k subject log)
     = Raise (IndexError (subject +:+ " has not been found")))
  /\ ((1 < n)%nat ->
        fst (resolver env k subject log)
        = Raise (ValueError ("Ambiguous result. " +:+ str (Z.of_nat n)
                             +:+ " records returned")))
  /\ (n <> 1%nat -> forall answer, fst (resolver env k subject log) <> Ok answer).
Proof.
  intros Hq n.
  assert (E : resolver env k subject log
              = if (n =? 0)%nat
                then (Raise (IndexError (subject +:+ " has not been found")),
                      (log ++ [build_query k subject])%list)
                else if (1 <? n)%nat
                then (Raise (ValueError ("Ambiguous result. " +:+ str (Z.of_nat n)
                                         +:+ " records returned")),
                      (log ++ [build_query k subject])%list)
                else resolver env k subject log).
  { destruct k; simpl in *; run_resolver; rewrite Hq; simpl; fold n;
      destruct (n =? 0)%nat; try reflexivity;
      destruct (1 <? n)%nat; reflexivity. }
  repeat split.
  - intros Hn. rewrite E, Hn. reflexivity.
  - intros Hn. rewrite E.
    destruct n as [|n']; [lia|]. simpl (S n' =? 0)%nat. cbv iota.
    apply Nat.ltb_lt in Hn. rewrite Hn. reflexivity.
  - intros Hn answer. rewrite E.
    destruct (n =? 0)%nat eqn:E0; [discriminate|].
    destruct (1 <? n)%nat eqn:E1; [discriminate|].
    apply Nat.eqb_neq in E0. apply Nat.ltb_ge in E1. lia.
Qed.

(** C4. When the single binding of an age query carries a date of death,
    [get_age] fails with the deceased condition, whatever the binding
    holds for the date of birth and whatever the date parser would make
    of it. *)
Theorem get_age_deceased
    (person : string) (log : list string) (b : binding) :
  sparql_query env (person_query person) = Ok (mkresult [b]) ->
  is_Some (b !! "date_of_death") ->
  get_age env person log
  = (Raise (ValueError (person +:+ " is dead")),
     (log ++ [person_query person])%list).
Proof.
  intros Hq Hd. run_resolver. rewrite Hq. simpl.
  unfold has_key. rewrite bool_decide_eq_true_2 by exact Hd. reflexivity.
Qed.

(** C5. When the result of a population query has exactly one binding,
    [get_population] returns the [value] sub-field of the binding's
    population field; when the binding has no population field the lookup
    fails with the key error of the dictionary, which reaches the caller
    as it is: it is none of the failures the program raises itself, and
    [ask] hands the outcome of the resolver on unchanged. *)
Theorem get_population_single
    (city : string) (log : list string) (b : binding) :
  sparql_query env (city_query city) = Ok (mkresult [b]) ->
  (forall field text,
      b !! "population" = Some field -> field !! "value" = Some text ->
      fst (get_population env city log) = Ok text)
  /\ (b !! "population" = None ->
      fst (get_population env city log) = Raise (KeyError "population")
      /\ forall msg, fst (get_population env city log) <> Raise (IndexError msg)
                     /\ fst (get_population env city log) <> Raise (ValueError msg))
  /\ (forall question,
        matches env Population question ->
        blank env (remainder env Population question) = false ->
        Spec.subject env Population question = city ->
        ask env question log = get_population env city log).
Proof.
  intros Hq. split; [|split].
  - intros field text Hf Hv. run_resolver. rewrite Hq. simpl.
    rewrite Hf. simpl. rewrite Hv. reflexivity.
  - intros Hf.
    assert (E : fst (get_population env city log) = Raise (KeyError "population")).
    { run_resolver. rewrite Hq. simpl. rewrite Hf. reflexivity. }
    split; [exact E|]. intros msg. rewrite E. split; discriminate.
  - intros question Hm Hw <-.
    rewrite ask_by_kind, (matches_kind_of _ _ _ Hm), Hw. reflexivity.
Qed.

End Resolvers.

(** ** What [ask] does with a question *)

Section Ask.
Import Py Spec.

Variable env : Env.

(** The queries [ask] sends, by the kind of the question. *)
Lemma sent_ask (q : string) (log : list string) :
  sent (ask env q) log
  = match kind_of env q with
    | Some k =>
        if blank env (remainder env k q) then []
        else [build_query k (subject env k q)]
    | None => []
    end.
Proof.
  rewrite ask_by_kind. destruct (kind_of env q) as [k|].
  - destruct (blank env (remainder env k q)).
    + apply sent_raise.
    + apply sent_resolver.
  - apply sent_raise.
Qed.

(** C3. The two prefixes are looked for in the lowercased question, at any
    position: a question whose lowercased text holds the age prefix is
    routed to the age kind, one that holds the population prefix and not
    the age prefix is routed to the population kind.  The lowercased text
    holds a prefix as soon as the question holds it somewhere in any
    casing; and "What is the population of Paris" goes to the population
    resolver.  (The last two parts are about what [str.lower] does: they
    are stated of lawful built-ins.) *)
Theorem ask_routes_by_substring (q : string) :
  (occurs_in age_question (str_lower env q) -> routed env Age q)
  /\ (occurs_in population_question (str_lower env q) ->
      ~ occurs_in age_question (str_lower env q) ->
      routed env Population q)
  /\ (lawful env ->
      forall k pre mid post,
        q = pre +:+ mid +:+ post -> lower mid = prefix k ->
        occurs_in (prefix k) (str_lower env q))
  /\ (lawful env ->
      ask env "What is the population of Paris" = get_population env "Paris").
Proof.
  split; [|split; [|split]].
  - intros Ha. apply routed_kind, kind_of_age, Ha.
  - intros Hp Ha. apply routed_kind, kind_of_population; assumption.
  - intros Hlaw k pre mid post -> Hmid. now apply lawful_occurs.
  - intros Hlaw. rewrite ask_by_kind.
    assert (Hk : kind_of env "What is the population of Paris" = Some Population)
      by (rewrite (ascii_kind_of env Hlaw) by reflexivity; reflexivity).
    rewrite Hk.
    destruct (ascii_remainder env Hlaw Population
                "What is the population of Paris" eq_refl) as [Er Ha].
    rewrite (ascii_blank env Hlaw _ Ha), Er.
    rewrite (ascii_subject env Hlaw Population) by reflexivity.
    reflexivity.
Qed.

(** C6. For a question that matches a prefix and has a subject, the
    resolver of the kind is called on the lowercased question with the
    prefix phrase removed, trimmed and title-cased: [ask] is that call,
    and the one query sent is the one built from that subject.  The
    lowering, the trimming and the title-casing are those of [str.lower],
    [str.strip] and [str.title]; on an ASCII question they are the
    functions of [Py]. *)
Theorem ask_passes_subject (k : kind) (q : string) (log : list string) :
  matches env k q ->
  blank env (replace (prefix k) "" (str_lower env q)) = false ->
  let subject :=
    str_title env (str_strip env (replace (prefix k) "" (str_lower env q))) in
  ask env q = resolver env k subject
  /\ sent (ask env q) log = [build_query k subject]
  /\ (lawful env -> is_ascii q = true ->
      subject = title (strip (replace (prefix k) "" (lower q)))).
Proof.
  intros Hm Hw subject. apply matches_kind_of in Hm.
  split; [|split].
  - rewrite ask_by_kind, Hm. unfold remainder. rewrite Hw. reflexivity.
  - rewrite sent_ask, Hm. unfold remainder. rewrite Hw. reflexivity.
  - intros Hlaw Ha. apply (ascii_subject env Hlaw k q Ha).
Qed.

(** C8. A question that matches a prefix and whose text, the prefix
    removed, is empty or white space only (the text is empty, or
    [str.strip] leaves nothing of it) fails with the missing-subject
    condition of the kind, and the log of queries is left as it was.  With
    lawful built-ins it is enough that the prefix occurs: a text that is
    blank without the population prefix does not hold the age prefix. *)
Theorem ask_missing_subject (k : kind) (q : string) (log : list string) :
  (matches env k q ->
   blank env (replace (prefix k) "" (str_lower env q)) = true ->
   ask env q log = (Raise (ValueError (missing_subject k)), log))
  /\ (lawful env ->
      occurs_in (prefix k) (str_lower env q) ->
      blank env (replace (prefix k) "" (str_lower env q)) = true ->
      ask env q log = (Raise (ValueError (missing_subject k)), log)).
Proof.
  assert (Hgen : kind_of env q = Some k ->
                 blank env (replace (prefix k) "" (str_lower env q)) = true ->
                 ask env q log = (Raise (ValueError (missing_subject k)), log)).
  { intros Hk Hw. rewrite ask_by_kind, Hk. unfold remainder. rewrite Hw.
    reflexivity. }
  split.
  - intros Hm. apply Hgen, matches_kind_of, Hm.
  - intros Hlaw Ho Hw. apply Hgen; [|exact Hw].
    destruct k; simpl in *.
    + apply kind_of_age, Ho.
    + apply kind_of_population; [exact Ho|].
      intros Ha. apply contains_spec in Ha.
      rewrite (blank_excludes_age env Hlaw _ Hw) in Ha. discriminate.
Qed.

(** C9. A question whose lowercased text holds neither prefix fails with
    the unrecognised-question condition; the message ends with the
    question as the caller gave it. *)
Theorem ask_invalid_question (q : string) (log : list string) :
  ~ occurs_in age_question (str_lower env q) ->
  ~ occurs_in population_question (str_lower env q) ->
  ask env q log = (Raise (ValueError ("Invalid question: " +:+ q)), log).
Proof.
  intros Ha Hp. rewrite ask_by_kind, kind_of_none by assumption. reflexivity.
Qed.

(** C10. A question whose lowercased text holds both prefixes is routed to
    the age kind, and no query of the population resolver is sent. *)
Theorem ask_age_first (q : string) :
  occurs_in age_question (str_lower env q) ->
  occurs_in population_question (str_lower env q) ->
  routed env Age q
  /\ forall log city, ~ In (city_query city) (sent (ask env q) log).
Proof.
  intros Ha Hp. split.
  - apply routed_kind, kind_of_age, Ha.
  - intros log city. rewrite sent_ask, (kind_of_age _ _ Ha).
    destruct (blank env (remainder env Age q)); simpl; [tauto|].
    intros [E|[]]. exact (person_query_not_city_query _ _ E).
Qed.

(** C7, as the program has it. A call of [ask] sends at most one query:
    the query of the matched kind, built from the subject, when the
    question matches a prefix and has a subject; none when the subject is
    missing or the question is not recognised. *)
Theorem ask_sends_at_most_one (q : string) (log : list string) :
  snd (ask env q log) = (log ++ sent (ask env q) log)%list
  /\ (length (sent (ask env q) log) <= 1)%nat
  /\ sent (ask env q) log
     = match kind_of env q with
       | Some k =>
           if blank env (remainder env k q) then []
           else [build_query k (subject env k q)]
       | None => []
       end.
Proof.
  split; [|split].
  - rewrite sent_ask, ask_by_kind. destruct (kind_of env q) as [k|].
    + destruct (blank env (remainder env k q)); simpl.
      * now rewrite app_nil_r.
      * apply resolver_log.
    + simpl. now rewrite app_nil_r.
  - rewrite sent_ask. destruct (kind_of env q) as [k|]; simpl; [|lia].
    destruct (blank env (remainder env k q)); simpl; lia.
  - apply sent_ask.
Qed.

End Ask.

(** ** Whole years between two dates *)

Section Years.
Import Calendar RelativeDelta Spec.

Lemma div12_unique (a q : Z) : 12 * q <= a < 12 * q + 12 -> a / 12 = q.
Proof. intros H. symmetry. apply (Z.div_unique a 12 q (a - 12 * q)); lia. Qed.

(** [_set_months] keeps the count: twelve times the years plus the months;
    the months stay within a year and have the sign of the count. *)
Lemma set_months_index (m : Z) :
  12 * years (set_months m) + months (set_months m) = m
  /\ -11 <= months (set_months m) <= 11
  /\ (0 <= m -> 0 <= months (set_months m))
  /\ (m <= 0 -> months (set_months m) <= 0).
Proof.
  unfold set_months.
  destruct (11 <? Z.abs m) eqn:E; cbn [years months].
  - apply Z.ltb_lt in E.
    destruct (Z.lt_ge_cases m 0) as [Hneg|Hpos].
    + rewrite Z.sgn_neg by exact Hneg.
      pose proof (Z.div_mod (m * -1) 12 ltac:(lia)).
      pose proof (Z.mod_pos_bound (m * -1) 12 ltac:(lia)). lia.
    + rewrite Z.sgn_pos by lia.
      pose proof (Z.div_mod (m * 1) 12 ltac:(lia)).
      pose proof (Z.mod_pos_bound (m * 1) 12 ltac:(lia)). lia.
  - apply Z.ltb_ge in E. lia.
Qed.

Lemma set_months_nonneg (m : Z) :
  0 <= m -> set_months m = mk (m / 12) (m mod 12).
Proof.
  intros Hm. unfold set_months.
  destruct (11 <? Z.abs m) eqn:E.
  - apply Z.ltb_lt in E. rewrite Z.sgn_pos by lia. now rewrite !Z.mul_1_r.
  - apply Z.ltb_ge in E. rewrite Z.div_small, Z.mod_small by lia. reflexivity.
Qed.

(** Adding a month count, of either sign: the month reached is the one
    whose index is the index of the starting month plus the count. *)
Lemma radd_set_months (dt : date) (m y' m' : Z) :
  1 <= month dt <= 12 ->
  1 <= m' <= 12 -> 12 * y' + m' = 12 * year dt + month dt + m ->
  1 <= y' <= 9999 ->
  radd (set_months m) dt
  = Ok (mkdate y' m' (Z.min (days_in_month y' m') (day dt))).
Proof.
  intros Hmo Hm' Hidx Hy'.
  destruct (set_months_index m) as (Hsum & Hr & _).
  unfold radd.
  set (q := years (set_months m)) in *. set (r := months (set_months m)) in *.
  assert (Hcase : (if r =? 0 then (year dt + q, month dt)
                   else if 12 <? month dt + r then (year dt + q + 1, month dt + r - 12)
                   else if month dt + r <? 1 then (year dt + q - 1, month dt + r + 12)
                   else (year dt + q, month dt + r)) = (y', m')).
  { destruct (r =? 0) eqn:E0; [apply Z.eqb_eq in E0; f_equal; lia|].
    destruct (12 <? month dt + r) eqn:E1; [apply Z.ltb_lt in E1; f_equal; lia|].
    apply Z.ltb_ge in E1.
    destruct (month dt + r <? 1) eqn:E2; [apply Z.ltb_lt in E2; f_equal; lia|].
    apply Z.ltb_ge in E2. f_equal; lia. }
  rewrite Hcase.
  replace ((1 <=? y') && (y' <=? 9999)) with true; [reflexivity|].
  symmetry. apply andb_true_intro. split; apply Z.leb_le; lia.
Qed.

Lemma valid_date_inv (d : date) :
  valid_date d = true ->
  1 <= year d <= 9999 /\ 1 <= month d <= 12
  /\ 1 <= day d <= days_in_month (year d) (month d).
Proof.
  unfold valid_date. intros H.
  repeat (apply andb_prop in H as [H ?]).
  repeat match goal with
         | H : (_ <=? _) = true |- _ => apply Z.leb_le in H
         end.
  lia.
Qed.

Lemma date_lt_spec (d1 d2 : date) :
  date_lt d1 d2 = true
  <-> year d1 < year d2
      \/ (year d1 = year d2
          /\ (month d1 < month d2
              \/ (month d1 = month d2 /\ day d1 < day d2))).
Proof.
  unfold date_lt.
  rewrite orb_true_iff, andb_true_iff, orb_true_iff, andb_true_iff.
  rewrite !Z.ltb_lt, !Z.eqb_eq. reflexivity.
Qed.

Lemma date_lt_false (d1 d2 : date) :
  date_lt d1 d2 = false
  <-> year d2 < year d1
      \/ (year d1 = year d2
          /\ (month d2 < month d1
              \/ (month d1 = month d2 /\ day d2 <= day d1))).
Proof.
  rewrite <- not_true_iff_false, date_lt_spec. lia.
Qed.

(** The adjusting loop ends, after one step back at most, as soon as it
    is granted one iteration; the months it settles on are the whole
    months from [dob] to [today]. *)
Lemma adjust_valid (fuel : nat) (today dob : date) :
  valid_date today = true -> valid_date dob = true ->
  date_lt today dob = false ->
  let m := (year today - year dob) * 12 + (month today - month dob) in
  let back :=
    if day today <? Z.min (days_in_month (year today) (month today)) (day dob)
    then 1 else 0 in
  0 <= m - back
  /\ adjust (S fuel) date_lt (-1) today dob m = Ok (m - back).
Proof.
  intros Ht Hd Hle m back.
  apply valid_date_inv in Ht as (Hty & Htm & Htd).
  apply valid_date_inv in Hd as (Hdy & Hdm & Hdd).
  apply date_lt_false in Hle.
  assert (Hm : 0 <= m) by (unfold m; lia).
  cbn [adjust].
  rewrite (radd_set_months dob m (year today) (month today))
    by (unfold m; lia).
  assert (Hcmp : date_lt today
                   (mkdate (year today) (month today)
                      (Z.min (days_in_month (year today) (month today)) (day dob)))
                 = (day today <? Z.min (days_in_month (year today) (month today))
                                       (day dob))).
  { unfold date_lt. cbn [year month day].
    rewrite !Z.ltb_irrefl, !Z.eqb_refl. reflexivity. }
  rewrite Hcmp. unfold back.
  destruct (day today <? Z.min (days_in_month (year today) (month today)) (day dob))
    eqn:E.
  - apply Z.ltb_lt in E.
    assert (Hm1 : 1 <= m) by (unfold m; lia).
    split; [lia|].
    set (y' := if month today =? 1 then year today - 1 else year today).
    set (m' := if month today =? 1 then 12 else month today - 1).
    assert (Hym : 1 <= m' <= 12 /\ 12 * y' + m' = 12 * year today + month today - 1
                  /\ 1 <= y' <= 9999).
    { unfold y', m'. destruct (month today =? 1) eqn:E1.
      - apply Z.eqb_eq in E1. unfold m in Hm1. lia.
      - apply Z.eqb_neq in E1. lia. }
    destruct Hym as (Hm' & Hidx & Hy').
    replace (m + -1) with (m - 1) by lia.
    assert (Hr : radd (set_months (m - 1)) dob
                 = Ok (mkdate y' m' (Z.min (days_in_month y' m') (day dob))))
      by (apply radd_set_months; unfold m; lia).
    assert (Hlt : date_lt today
                    (mkdate y' m' (Z.min (days_in_month y' m') (day dob))) = false).
    { apply date_lt_false. cbn [year month day]. lia. }
    destruct fuel; cbn [adjust]; rewrite Hr, Hlt; reflexivity.
  - split; [lia|]. f_equal. lia.
Qed.

(** The same for a date of birth that lies after today: one step forward
    at most. *)
Lemma adjust_valid_future (fuel : nat) (today dob : date) :
  valid_date today = true -> valid_date dob = true ->
  date_lt today dob = true ->
  let m := (year today - year dob) * 12 + (month today - month dob) in
  let forth :=
    if Z.min (days_in_month (year today) (month today)) (day dob) <? day today
    then 1 else 0 in
  m + forth <= 0
  /\ adjust (S fuel) date_gt 1 today dob m = Ok (m + forth).
Proof.
  intros Ht Hd Hlt m forth.
  apply valid_date_inv in Ht as (Hty & Htm & Htd).
  apply valid_date_inv in Hd as (Hdy & Hdm & Hdd).
  apply date_lt_spec in Hlt.
  assert (Hm : m <= 0) by (unfold m; lia).
  cbn [adjust].
  rewrite (radd_set_months dob m (year today) (month today))
    by (unfold m; lia).
  assert (Hcmp : date_gt today
                   (mkdate (year today) (month today)
                      (Z.min (days_in_month (year today) (month today)) (day dob)))
                 = (Z.min (days_in_month (year today) (month today)) (day dob)
                    <? day today)).
  { unfold date_gt, date_lt. cbn [year month day].
    rewrite !Z.ltb_irrefl, !Z.eqb_refl. reflexivity. }
  rewrite Hcmp. unfold forth.
  destruct (Z.min (days_in_month (year today) (month today)) (day dob) <? day today)
    eqn:E.
  - apply Z.ltb_lt in E.
    assert (Hm1 : m <= -1) by (unfold m; lia).
    split; [lia|].
    set (y' := if month today =? 12 then year today + 1 else year today).
    set (m' := if month today =? 12 then 1 else month today + 1).
    assert (Hym : 1 <= m' <= 12 /\ 12 * y' + m' = 12 * year today + month today + 1
                  /\ 1 <= y' <= 9999).
    { unfold y', m'. destruct (month today =? 12) eqn:E1.
      - apply Z.eqb_eq in E1. unfold m in Hm1. lia.
      - apply Z.eqb_neq in E1. lia. }
    destruct Hym as (Hm' & Hidx & Hy').
    assert (Hr : radd (set_months (m + 1)) dob
                 = Ok (mkdate y' m' (Z.min (days_in_month y' m') (day dob))))
      by (apply radd_set_months; unfold m; lia).
    assert (Hgt : date_gt today
                    (mkdate y' m' (Z.min (days_in_month y' m') (day dob))) = false).
    { unfold date_gt. apply date_lt_false. cbn [year month day]. lia. }
    destruct fuel; cbn [adjust]; rewrite Hr, Hgt; reflexivity.
  - split; [lia|]. f_equal. lia.
Qed.

(** On dates, [relativedelta] returns: its loop neither runs on nor steps
    out of the years a date can hold. *)
Lemma relativedelta_total (fuel : nat) (today dob : date) :
  valid_date today = true -> valid_date dob = true ->
  exists delta, relativedelta (S fuel) today dob = Ok delta.
Proof.
  intros Ht Hd. unfold relativedelta.
  destruct (date_lt today dob) eqn:Hlt; cbv zeta; cbv iota beta.
  - destruct (adjust_valid_future fuel today dob Ht Hd Hlt) as [_ Hadj].
    cbv zeta in Hadj. rewrite Hadj. eexists. reflexivity.
  - destruct (adjust_valid fuel today dob Ht Hd Hlt) as [_ Hadj].
    cbv zeta in Hadj. rewrite Hadj. eexists. reflexivity.
Qed.

(** [relativedelta(today, dob).years], for a date of birth that is not
    after today, is the count of whole years. *)
Lemma relativedelta_years (fuel : nat) (today dob : date) :
  valid_date today = true -> valid_date dob = true ->
  date_le dob today = true ->
  exists delta,
    relativedelta (S fuel) today dob = Ok delta
    /\ years delta = whole_years today dob
    /\ 0 <= years delta.
Proof.
  intros Ht Hd Hle.
  assert (Hlt : date_lt today dob = false)
    by (unfold date_le in Hle; now apply negb_true_iff in Hle).
  destruct (adjust_valid fuel today dob Ht Hd Hlt) as [Hnn Hadj].
  cbv zeta in Hnn, Hadj.
  unfold relativedelta. rewrite Hlt. cbv zeta. cbv iota beta.
  rewrite Hadj.
  eexists. split; [reflexivity|].
  rewrite set_months_nonneg by exact Hnn. cbn [years].
  apply valid_date_inv in Ht as (Hty & Htm & Htd).
  apply valid_date_inv in Hd as (Hdy & Hdm & Hdd).
  apply date_lt_false in Hlt.
  split; [|apply Z.div_pos; lia].
  unfold whole_years, anniversary.
  destruct (date_lt today
              (mkdate (year today) (month dob)
                 (Z.min (days_in_month (year today) (month dob)) (day dob))))
    eqn:Ean.
  - apply date_lt_spec in Ean. cbn [year month day] in Ean.
    apply div12_unique.
    destruct (day today <? Z.min (days_in_month (year today) (month today)) (day dob))
      eqn:E; [apply Z.ltb_lt in E|apply Z.ltb_ge in E].
    + lia.
    + destruct Ean as [Ean|[_ [Ean|[Em Ean]]]]; [lia|lia|].
      rewrite Em in E. lia.
  - apply date_lt_false in Ean. cbn [year month day] in Ean.
    apply div12_unique.
    destruct (day today <? Z.min (days_in_month (year today) (month today)) (day dob))
      eqn:E; [apply Z.ltb_lt in E|apply Z.ltb_ge in E].
    + destruct Ean as [Ean|[_ [Ean|[Em Ean]]]]; [lia|lia|].
      rewrite Em in E. lia.
    + lia.
Qed.

End Years.

(** ** The age of a living subject *)

Section Age.
Import Calendar Spec.

Variable env : Env.

(** C2, as the program has it. When the single binding of an age query has
    no date of death and its date of birth parses to a date that is not
    after today, [get_age] returns the text of a natural number: the whole
    years from the date of birth to today, this year's anniversary counting
    only once it is reached.  (Dates are those a [datetime.date] can
    hold.) *)
Theorem get_age_whole_years
    (person : string) (log : list string) (b : binding)
    (field : gmap string string) (text : string) (dob : date) :
  sparql_query env (person_query person) = Ok (mkresult [b]) ->
  b !! "date_of_death" = None ->
  b !! "date_of_birth" = Some field ->
  field !! "value" = Some text ->
  dateutil_parse env text = Ok dob ->
  valid_date dob = true ->
  valid_date (date_today env) = true ->
  date_le dob (date_today env) = true ->
  exists n : nat,
    fst (get_age env person log) = Ok (Py.str (Z.of_nat n))
    /\ Z.of_nat n = whole_years (date_today env) dob.
Proof.
  intros Hq Hdod Hdob Hval Hparse Hvd Hvt Hle.
  destruct (relativedelta_years (Nat.pred loop_fuel) _ _ Hvt Hvd Hle)
    as (delta & Hrd & Hyears & Hnn).
  change (S (Nat.pred loop_fuel)) with loop_fuel in Hrd.
  exists (Z.to_nat (RelativeDelta.years delta)).
  rewrite Z2Nat.id by exact Hnn. split; [|exact Hyears].
  unfold get_age, run_query, mbind, M_bind, raise, lift, first, getitem,
    mret, M_ret.
  simpl. rewrite Hq. simpl.
  unfold has_key. rewrite bool_decide_eq_false_2
    by (rewrite Hdod; apply is_Some_None).
  rewrite Hdob. simpl. rewrite Hval. simpl. rewrite Hparse. simpl.
  rewrite Hrd. reflexivity.
Qed.

End Age.

(** ** Where the specification and the program part *)

(** C2 as the specification states it fails: the binding of the fixture's
    "Time Traveller" is single and has no date of death, its date of birth
    lies after today, and the answer is the text of a negative number. *)
Lemma get_age_future_birth_negative :
  sparql_query Fixture.env (person_query "Time Traveller")
  = Ok (mkresult [Fixture.person "2030-01-01T00:00:00Z" None])
  /\ Fixture.person "2030-01-01T00:00:00Z" None !! "date_of_death" = None
  /\ fst (get_age Fixture.env "Time Traveller" []) = Ok "-6"
  /\ ~ exists n : nat,
         fst (get_age Fixture.env "Time Traveller" [])
         = Ok (Py.str (Z.of_nat n)).
Proof.
  assert (E : fst (get_age Fixture.env "Time Traveller" []) = Ok (Py.str (-6)))
    by (vm_compute; reflexivity).
  split; [reflexivity|]. split; [vm_compute; reflexivity|].
  split; [vm_compute; reflexivity|].
  intros [n H]. rewrite E in H.
  assert (H' : pretty (-6) = pretty (Z.of_nat n))
    by (unfold Py.str in H; congruence).
  apply (inj pretty) in H'. lia.
Qed.

(** C7 as the specification states it fails: a question that is not
    recognised is refused without any query being sent. *)
Lemma ask_invalid_sends_nothing :
  ask Fixture.env "what is area of Berlin" []
  = (Raise (ValueError "Invalid question: what is area of Berlin"), [])
  /\ length (Spec.sent (ask Fixture.env "what is area of Berlin") []) <> 1%nat.
Proof. split; [reflexivity|]. vm_compute. discriminate. Qed.

(** ** The theorems at the fixture

    Each theorem that has hypotheses is applied to a question of the test
    suite; the hypotheses hold there by evaluation. *)

Lemma resolver_rejects_empty_and_ambiguous_witness :
  fst (get_population Fixture.env "Narnia" [])
  = Raise (IndexError "Narnia has not been found")
  /\ fst (get_age Fixture.env "Lincoln" [])
     = Raise (ValueError "Ambiguous result. 2 records returned").
Proof.
  split.
  - apply (resolver_rejects_empty_and_ambiguous Fixture.env Spec.Population
             "Narnia" [] (mkresult [])).
    + reflexivity.
    + reflexivity.
  - apply (resolver_rejects_empty_and_ambiguous Fixture.env Spec.Age
             "Lincoln" []
             (mkresult
                [Fixture.person "1809-02-12T00:00:00Z" (Some "1865-04-15T00:00:00Z");
                 Fixture.person "1932-01-01T00:00:00Z" None])).
    + reflexivity.
    + simpl. lia.
Defined.

Lemma get_age_whole_years_witness :
  exists n : nat,
    fst (get_age Fixture.env "Tony Blair" []) = Ok (Py.str (Z.of_nat n))
    /\ Z.of_nat n = Spec.whole_years (mkdate 2023 9 1) (mkdate 1953 5 6).
Proof.
  apply (get_age_whole_years Fixture.env "Tony Blair" []
           (Fixture.person "1953-05-06T00:00:00Z" None)
           (Fixture.value "1953-05-06T00:00:00Z")
           "1953-05-06T00:00:00Z" (mkdate 1953 5 6));
    vm_compute; reflexivity.
Defined.

Lemma ask_routes_by_substring_witness :
  Spec.routed Fixture.env Spec.Age "Tell me, HOW OLD IS tony blair"
  /\ Spec.routed Fixture.env Spec.Population "What is the population of Paris"
  /\ ask Fixture.env "What is the population of Paris"
     = get_population Fixture.env "Paris".
Proof.
  split; [|split].
  - apply (proj1 (ask_routes_by_substring Fixture.env
                    "Tell me, HOW OLD IS tony blair")).
    apply (proj1 (proj2 (proj2 (ask_routes_by_substring Fixture.env
                                  "Tell me, HOW OLD IS tony blair")))
             fixture_lawful Spec.Age "Tell me, " "HOW OLD IS " "tony blair");
      reflexivity.
  - apply (proj1 (proj2 (ask_routes_by_substring Fixture.env
                           "What is the population of Paris"))).
    + exists "", "paris". reflexivity.
    + intros H. apply contains_spec in H. vm_compute in H. discriminate H.
  - apply (proj2 (proj2 (proj2 (ask_routes_by_substring Fixture.env
                                  "What is the population of Paris")))
             fixture_lawful).
Defined.

Lemma get_age_deceased_witness :
  get_age Fixture.env "Abraham Lincoln" []
  = (Raise (ValueError "Abraham Lincoln is dead"),
     [person_query "Abraham Lincoln"]).
Proof.
  apply (get_age_deceased Fixture.env "Abraham Lincoln" []
           (Fixture.person "1809-02-12T00:00:00Z" (Some "1865-04-15T00:00:00Z"))).
  - reflexivity.
  - exists (Fixture.value "1865-04-15T00:00:00Z"). vm_compute. reflexivity.
Defined.

Lemma get_population_single_witness :
  fst (get_population Fixture.env "London" []) = Ok "8799728"
  /\ fst (get_population Fixture.env "Berlin" []) = Raise (KeyError "population")
  /\ ask Fixture.env "what is the population of lOndon" []
     = get_population Fixture.env "London" [].
Proof.
  split; [|split].
  - apply (proj1 (get_population_single Fixture.env "London" []
                    (Fixture.city (Some "8799728")) eq_refl)
             (Fixture.value "8799728"));
      vm_compute; reflexivity.
  - apply (proj1 (proj2 (get_population_single Fixture.env "Berlin" []
                           (Fixture.city None) eq_refl))).
    vm_compute. reflexivity.
  - apply (proj2 (proj2 (get_population_single Fixture.env "London" []
                           (Fixture.city (Some "8799728")) eq_refl))).
    + split.
      * exists "", "london". reflexivity.
      * intros H. apply contains_spec in H. vm_compute in H. discriminate H.
    + reflexivity.
    + reflexivity.
Defined.

Lemma ask_passes_subject_witness :
  (ask Fixture.env "How Old Is   FRANÇOIS hollande  "
   = get_age Fixture.env "François Hollande"
   /\ Spec.sent (ask Fixture.env "How Old Is   FRANÇOIS hollande  ") []
      = [person_query "François Hollande"])
  /\ (ask Fixture.env " what IS the Population OF  saint-DENIS "
      = get_population Fixture.env "Saint-Denis"
      /\ Spec.sent (ask Fixture.env " what IS the Population OF  saint-DENIS ") []
         = [city_query "Saint-Denis"]
      /\ "Saint-Denis"
         = Py.title (Py.strip (Py.replace "what is the population of " ""
                                 (Py.lower " what IS the Population OF  saint-DENIS ")))).
Proof.
  split.
  - destruct (ask_passes_subject Fixture.env Spec.Age
                "How Old Is   FRANÇOIS hollande  " []) as (H1 & H2 & _).
    + exists "", "  françois hollande  ". reflexivity.
    + reflexivity.
    + split; [exact H1|exact H2].
  - destruct (ask_passes_subject Fixture.env Spec.Population
                " what IS the Population OF  saint-DENIS " []) as (H1 & H2 & H3).
    + split.
      * exists " ", " saint-denis ". reflexivity.
      * intros H. apply contains_spec in H. vm_compute in H. discriminate H.
    + reflexivity.
    + split; [exact H1|]. split; [exact H2|].
      exact (H3 fixture_lawful eq_refl).
Defined.

Lemma ask_missing_subject_witness :
  ask Fixture.env "how old is " [] = (Raise (ValueError "Missing person's name"), [])
  /\ ask Fixture.env ("How old is " +:+ Utf8.nbsp) []
     = (Raise (ValueError "Missing person's name"), [])
  /\ ask Fixture.env (" What is the population of " +:+ Utf8.em_space) []
     = (Raise (ValueError "Missing city name"), [])
  /\ ask Fixture.env "what is the population of " []
     = (Raise (ValueError "Missing city name"), []).
Proof.
  split; [|split; [|split]].
  - apply (proj1 (ask_missing_subject Fixture.env Spec.Age "how old is " [])).
    + exists "", "". reflexivity.
    + reflexivity.
  - apply (proj1 (ask_missing_subject Fixture.env Spec.Age
                    ("How old is " +:+ Utf8.nbsp) [])).
    + exists "", Utf8.nbsp. reflexivity.
    + reflexivity.
  - apply (proj1 (ask_missing_subject Fixture.env Spec.Population
                    (" What is the population of " +:+ Utf8.em_space) [])).
    + split.
      * exists " ", Utf8.em_space. reflexivity.
      * intros H. apply contains_spec in H. vm_compute in H. discriminate H.
    + reflexivity.
  - apply (proj2 (ask_missing_subject Fixture.env Spec.Population
                    "what is the population of " []) fixture_lawful).
    + exists "", "". reflexivity.
    + reflexivity.
Defined.

Lemma ask_invalid_question_witness :
  ask Fixture.env "what is area of Berlin" []
  = (Raise (ValueError "Invalid question: what is area of Berlin"), []).
Proof.
  apply (ask_invalid_question Fixture.env "what is area of Berlin" []);
    intros H; apply contains_spec in H; vm_compute in H; discriminate H.
Defined.

Lemma ask_age_first_witness :
  Spec.routed Fixture.env Spec.Age "how old is what is the population of london"
  /\ forall log city,
       ~ In (city_query city)
            (Spec.sent (ask Fixture.env "how old is what is the population of london")
               log).
Proof.
  apply (ask_age_first Fixture.env "how old is what is the population of london").
  - exists "", "what is the population of london". reflexivity.
  - exists "how old is ", "london". reflexivity.
Defined.

(** * Further properties of the program *)

(** ** More on the text primitives *)

Section MoreText.
Import Py Spec.

Ltac by_character c :=
  destruct c as [[] [] [] [] [] [] [] []]; reflexivity.

Lemma is_space_lower_char (c : ascii) : is_space (lower_char c) = is_space c.
Proof. by_character c. Qed.

Lemma is_space_upper_char (c : ascii) : is_space (upper_char c) = is_space c.
Proof. by_character c. Qed.

Lemma is_cased_lower_char (c : ascii) : is_cased (lower_char c) = is_cased c.
Proof. by_character c. Qed.

Lemma is_cased_upper_char (c : ascii) : is_cased (upper_char c) = is_cased c.
Proof. by_character c. Qed.

(** Where [old] does not occur, [replace] changes nothing. *)
Lemma replace_absent (old new s : string) :
  contains old s = false -> replace old new s = s.
Proof.
  unfold replace. induction s as [|c s IH]; [reflexivity|].
  intros H. change (contains old (String c s))
    with (startswith old (String c s) || contains old s) in H.
  apply orb_false_elim in H as [Hs Hc].
  cbn [replace_from]. rewrite Hs. now rewrite IH.
Qed.

Lemma rstrip_cons (c : ascii) (s : string) :
  rstrip (String c s)
  = match rstrip s with
    | EmptyString => if is_space c then EmptyString else String c EmptyString
    | String x r => String c (String x r)
    end.
Proof. reflexivity. Qed.

(** What [lstrip] leaves is empty or starts with a character that is not
    white space. *)
Lemma lstrip_head (s : string) :
  lstrip s = "" \/ exists c r, lstrip s = String c r /\ is_space c = false.
Proof.
  induction s as [|c s IH]; simpl; [now left|].
  destruct (is_space c) eqn:Hc; [exact IH|].
  right. exists c, s. now split.
Qed.

Lemma rstrip_head (c : ascii) (r : string) :
  is_space c = false -> exists r', rstrip (String c r) = String c r'.
Proof.
  intros Hc. cbn [rstrip]. destruct (rstrip r) as [|x y].
  - rewrite Hc. now exists "".
  - now exists (String x y).
Qed.

Lemma strip_not_empty (s : string) :
  whitespace_only s = false -> strip s <> "".
Proof.
  intros H E. unfold strip in E.
  pose proof (rstrip_empty (lstrip s)) as Hr.
  rewrite E, whitespace_lstrip, H in Hr. discriminate.
Qed.

Lemma app_inv_head_s (a x y : string) : a +:+ x = a +:+ y -> x = y.
Proof.
  induction a as [|c a IH]; simpl; [auto|].
  intros H. injection H as H. auto.
Qed.

Lemma app_inv_tail_s (b x y : string) : x +:+ b = y +:+ b -> x = y.
Proof.
  revert y. induction x as [|c x IH]; intros [|d y] H; simpl in H.
  - reflexivity.
  - apply (f_equal String.length) in H. simpl in H.
    rewrite app_length_s in H. lia.
  - apply (f_equal String.length) in H. simpl in H.
    rewrite app_length_s in H. lia.
  - injection H as -> H. f_equal. auto.
Qed.

End MoreText.

(** ** The queries *)

Section Queries.
Import Py Spec.

(** Each template is a fixed text around the subject, which is written
    into it as it is. *)
Lemma build_query_shape (k : kind) :
  exists pre post : string, forall subject,
    build_query k subject = pre +:+ subject +:+ post.
Proof.
  destruct k.
  - exists ("SELECT DISTINCT ?person ?personLabel ?date_of_birth ?date_of_death WHERE {"
            +:+ nl +:+ indent +:+ "?person wdt:P31 wd:Q5;"
            +:+ nl +:+ indent +:+ "wdt:P106 wd:Q82955;"
            +:+ nl +:+ indent +:+ "wdt:P569 ?date_of_birth;"
            +:+ nl +:+ indent +:+ "?label " +:+ dq).
    eexists. intros subject. unfold build_query, person_query. simpl. reflexivity.
  - exists ("SELECT DISTINCT ?city ?cityLabel ?population WHERE { "
            +:+ nl +:+ indent +:+ "?city wdt:P31 wd:Q5119; "
            +:+ nl +:+ indent +:+ "?label " +:+ dq).
    eexists. intros subject. unfold build_query, city_query. simpl. reflexivity.
Qed.

Lemma build_query_inj (k : kind) (s1 s2 : string) :
  build_query k s1 = build_query k s2 -> s1 = s2.
Proof.
  destruct (build_query_shape k) as (pre & post & E). rewrite !E.
  intros H. apply app_inv_head_s in H. now apply app_inv_tail_s in H.
Qed.

(** X1. A query tells which resolver built it and for which subject: two
    queries are the same text only when kind and subject are the same. *)
Theorem build_query_determines_subject (k1 k2 : kind) (s1 s2 : string) :
  build_query k1 s1 = build_query k2 s2 -> k1 = k2 /\ s1 = s2.
Proof.
  intros H. destruct k1, k2.
  - split; [reflexivity|]. exact (build_query_inj Age _ _ H).
  - exfalso. exact (person_query_not_city_query _ _ H).
  - exfalso. symmetry in H. exact (person_query_not_city_query _ _ H).
  - split; [reflexivity|]. exact (build_query_inj Population _ _ H).
Qed.

End Queries.

(** ** Failures that come from outside *)

Ltac run_guru :=
  unfold get_age, get_population, run_query, mbind, M_bind, raise, lift,
    first, getitem, mret, M_ret;
  simpl.

Section Failures.
Import Py Spec.

Variable env : Env.

(** X2. When the client raises, or does not return, [ask] ends the same
    way, the query having been sent once: nothing is caught and nothing is
    sent again. *)
Theorem ask_client_failure (k : kind) (q : string) (log : list string) :
  kind_of env q = Some k ->
  blank env (remainder env k q) = false ->
  let query := build_query k (subject env k q) in
  (forall e, sparql_query env query = Raise e ->
             ask env q log = (Raise e, (log ++ [query])%list))
  /\ (sparql_query env query = Diverge ->
      ask env q log = (Diverge, (log ++ [query])%list)).
Proof.
  intros Hk Hw query. rewrite ask_by_kind, Hk, Hw. unfold query.
  split; [intros e H|intros H]; destruct k; simpl in *; run_guru;
    rewrite H; reflexivity.
Qed.

(** X3. A single binding of a living subject that has no date of birth,
    or whose date of birth has no [value], makes [get_age] fail with the
    key error of the missing key. *)
Theorem get_age_missing_birth_field
    (person : string) (log : list string) (b : binding) :
  sparql_query env (person_query person) = Ok (mkresult [b]) ->
  b !! "date_of_death" = None ->
  (b !! "date_of_birth" = None ->
   fst (get_age env person log) = Raise (KeyError "date_of_birth"))
  /\ (forall field,
        b !! "date_of_birth" = Some field -> field !! "value" = None ->
        fst (get_age env person log) = Raise (KeyError "value")).
Proof.
  intros Hq Hdod.
  assert (Hk : has_key "date_of_death" b = false).
  { unfold has_key. apply bool_decide_eq_false_2.
    rewrite Hdod. apply is_Some_None. }
  split.
  - intros Hdob. run_guru. rewrite Hq. simpl. rewrite Hk, Hdob. reflexivity.
  - intros field Hdob Hv. run_guru. rewrite Hq. simpl.
    rewrite Hk, Hdob. simpl. rewrite Hv. reflexivity.
Qed.

(** X4. When the date parser refuses the date of birth, [get_age] fails
    with the parser's exception. *)
Theorem get_age_parser_failure
    (person : string) (log : list string) (b : binding)
    (field : gmap string string) (text : string) (e : exn) :
  sparql_query env (person_query person) = Ok (mkresult [b]) ->
  b !! "date_of_death" = None ->
  b !! "date_of_birth" = Some field ->
  field !! "value" = Some text ->
  dateutil_parse env text = Raise e ->
  fst (get_age env person log) = Raise e.
Proof.
  intros Hq Hdod Hdob Hv Hp. run_guru. rewrite Hq. simpl.
  unfold has_key. rewrite bool_decide_eq_false_2
    by (rewrite Hdod; apply is_Some_None).
  rewrite Hdob. simpl. rewrite Hv. simpl. rewrite Hp. reflexivity.
Qed.

(** X5. A population field without a [value] makes [get_population] fail
    with the key error for [value]. *)
Theorem get_population_missing_value
    (city : string) (log : list string) (b : binding)
    (field : gmap string string) :
  sparql_query env (city_query city) = Ok (mkresult [b]) ->
  b !! "population" = Some field ->
  field !! "value" = None ->
  fst (get_population env city log) = Raise (KeyError "value").
Proof.
  intros Hq Hf Hv. run_guru. rewrite Hq. simpl.
  rewrite Hf. simpl. rewrite Hv. reflexivity.
Qed.

(** X6. [ask] gives an answer only when one query was sent, the query
    built for the subject of the question, and the client came back with
    exactly one binding; for an age question, a binding without a date of
    death. *)
Theorem ask_answer_needs_single_binding
    (q : string) (log log' : list string) (answer : string) :
  ask env q log = (Ok answer, log') ->
  exists k b,
    kind_of env q = Some k
    /\ blank env (remainder env k q) = false
    /\ log' = (log ++ [build_query k (subject env k q)])%list
    /\ sparql_query env (build_query k (subject env k q)) = Ok (mkresult [b])
    /\ (k = Age -> b !! "date_of_death" = None).
Proof.
  rewrite ask_by_kind. destruct (kind_of env q) as [k|]; [|discriminate].
  destruct (blank env (remainder env k q)) eqn:Hw; [discriminate|].
  intros H.
  assert (Hlog : log' = (log ++ [build_query k (subject env k q)])%list).
  { pose proof (resolver_log env k (subject env k q) log) as Hl.
    rewrite H in Hl. exact Hl. }
  destruct (sparql_query env (build_query k (subject env k q))) as [[bs]| |] eqn:Hq.
  - destruct bs as [|b [|b' bs]].
    + exfalso. destruct k; simpl in *; revert H; run_guru; rewrite Hq;
        discriminate.
    + exists k, b. repeat split; try assumption; try reflexivity.
      intros ->. simpl in *. revert H. run_guru. rewrite Hq. simpl.
      unfold has_key. destruct (b !! "date_of_death") eqn:Hd; [|reflexivity].
      rewrite bool_decide_eq_true_2 by eauto. discriminate.
    + exfalso. destruct k; simpl in *; revert H; run_guru; rewrite Hq;
        discriminate.
  - exfalso. destruct k; simpl in *; revert H; run_guru; rewrite Hq;
      discriminate.
  - exfalso. destruct k; simpl in *; revert H; run_guru; rewrite Hq;
      discriminate.
Qed.

End Failures.

(** ** The subject of a question *)

Section Subjects.
Import Py Spec.

Variable env : Env.

(** X7. For a question the router recognises, only the text [str.lower]
    gives counts: two questions with the same lowercased text are treated
    alike. *)
Theorem ask_ignores_case (q q' : string) :
  str_lower env q = str_lower env q' ->
  is_Some (kind_of env q) ->
  ask env q = ask env q'.
Proof.
  intros Heq [k Hk].
  assert (Hk' : kind_of env q' = Some k)
    by (unfold kind_of in *; rewrite <- Heq; exact Hk).
  rewrite !ask_by_kind, Hk, Hk'. unfold subject, remainder.
  now rewrite Heq.
Qed.

Lemma rstrip_last (s : string) (c : ascii) (r : string) :
  rstrip s = String c r -> is_space (last_char c r) = false.
Proof.
  revert c r. induction s as [|a s IH]; intros c r H; [discriminate|].
  rewrite rstrip_cons in H. destruct (rstrip s) as [|x y] eqn:E.
  - destruct (is_space a) eqn:Ha; [discriminate|].
    injection H as <- <-. exact Ha.
  - injection H as <- <-. cbn [last_char]. now apply IH.
Qed.

Lemma strip_trimmed (s : string) :
  whitespace_only s = false -> trimmed (strip s) = true.
Proof.
  intros Hw. pose proof (strip_not_empty s Hw) as Hne.
  unfold strip in *.
  destruct (lstrip_head s) as [E|(c & r & E & Hc)]; rewrite E in *;
    [now elim Hne|].
  destruct (rstrip_head c r Hc) as [r' Er]. rewrite Er.
  cbn [trimmed]. rewrite Hc, (rstrip_last _ _ _ Er). reflexivity.
Qed.

Lemma last_char_title_from (b : bool) (c c' : ascii) (s : string) :
  is_space c' = is_space c ->
  is_space (last_char c' (title_from b s)) = is_space (last_char c s).
Proof.
  revert b c c'. induction s as [|a s IH]; intros b c c' H; [exact H|].
  cbn [title_from last_char]. apply IH.
  destruct b; [apply is_space_lower_char|apply is_space_upper_char].
Qed.

Lemma title_trimmed (s : string) : trimmed (title s) = trimmed s.
Proof.
  destruct s as [|c s]; [reflexivity|].
  unfold title. cbn [title_from trimmed].
  rewrite is_space_upper_char.
  now rewrite (last_char_title_from (is_cased c) c (upper_char c) s)
    by apply is_space_upper_char.
Qed.

Lemma is_upper_lower_char (c : ascii) : is_upper (lower_char c) = false.
Proof. destruct c as [[] [] [] [] [] [] [] []]; reflexivity. Qed.

Lemma is_lower_upper_char (c : ascii) : is_lower (upper_char c) = false.
Proof. destruct c as [[] [] [] [] [] [] [] []]; reflexivity. Qed.

Lemma title_from_cased (b : bool) (s : string) :
  title_cased_from b (title_from b s) = true.
Proof.
  revert b. induction s as [|c s IH]; intros b; [reflexivity|].
  cbn [title_from title_cased_from].
  replace (is_cased (if b then lower_char c else upper_char c)) with (is_cased c)
    by (destruct b; [now rewrite is_cased_lower_char
                    |now rewrite is_cased_upper_char]).
  rewrite IH, andb_true_r.
  destruct b; [now rewrite is_upper_lower_char|now rewrite is_lower_upper_char].
Qed.

(** X8. With lawful built-ins, the subject of the query [ask] sends for
    an ASCII question is normalised: it is not empty, neither its first
    nor its last character is white space, no letter of it that follows a
    letter is a capital, and no other letter of it is a small letter. *)
Theorem ask_sends_normalised_subject
    (q : string) (log : list string) (k : kind) (s : string) :
  lawful env ->
  is_ascii q = true ->
  In (build_query k s) (sent (ask env q) log) ->
  trimmed s = true /\ title_cased s = true.
Proof.
  intros Hlaw Ha. rewrite sent_ask.
  destruct (kind_of env q) as [k'|]; [|intros []].
  destruct (blank env (remainder env k' q)) eqn:Hw; [intros []|].
  intros [E|[]].
  assert (Hs : s = subject env k' q).
  { destruct k', k; simpl in E.
    - symmetry. exact (build_query_inj Age _ _ E).
    - exfalso. exact (person_query_not_city_query _ _ E).
    - exfalso. symmetry in E. exact (person_query_not_city_query _ _ E).
    - symmetry. exact (build_query_inj Population _ _ E). }
  subst s. rewrite (ascii_subject env Hlaw k' q Ha).
  destruct (ascii_remainder env Hlaw k' q Ha) as [Er Hr].
  rewrite (ascii_blank env Hlaw _ Hr), Er in Hw.
  split.
  - rewrite title_trimmed. now apply strip_trimmed.
  - apply title_from_cased.
Qed.

(** X9. A question whose lowercased text is a prefix phrase followed by a
    text that holds neither phrase and is not blank is answered by the
    resolver of the phrase on that text, trimmed and title-cased. *)
Theorem ask_prefixed_question (k : kind) (q rest : string) :
  str_lower env q = prefix k +:+ rest ->
  (forall k', contains (prefix k') rest = false) ->
  blank env rest = false ->
  ask env q = resolver env k (str_title env (str_strip env rest)).
Proof.
  intros Hlow Hfree Hw.
  assert (Hk : kind_of env q = Some k).
  { unfold kind_of. rewrite Hlow. destruct k.
    - replace (contains age_question (prefix Age +:+ rest)) with true;
        [reflexivity|].
      symmetry. apply contains_spec. exists "", rest. reflexivity.
    - replace (contains age_question (prefix Population +:+ rest))
        with false.
      + replace (contains population_question (prefix Population +:+ rest))
          with true; [reflexivity|].
        symmetry. apply contains_spec. exists "", rest. reflexivity.
      + symmetry. pose proof (Hfree Age) as Ha.
        unfold prefix, age_question, population_question in *.
        simpl. exact Ha. }
  assert (Hrem : remainder env k q = rest).
  { unfold remainder. rewrite Hlow.
    rewrite replace_app_old by (destruct k; discriminate).
    simpl ("" +:+ _). apply replace_absent, Hfree. }
  rewrite ask_by_kind, Hk. unfold subject. rewrite Hrem, Hw. reflexivity.
Qed.

End Subjects.

(** ** More on the age *)

Section MoreAge.
Import Calendar Spec.

(** [get_age] on the single binding of a living subject whose date of
    birth parses: the outcome is that of the date arithmetic. *)
Lemma get_age_living
    (env : Env) (person : string) (log : list string) (b : binding)
    (field : gmap string string) (text : string) (dob : date) :
  sparql_query env (person_query person) = Ok (mkresult [b]) ->
  b !! "date_of_death" = None ->
  b !! "date_of_birth" = Some field ->
  field !! "value" = Some text ->
  dateutil_parse env text = Ok dob ->
  fst (get_age env person log)
  = match RelativeDelta.relativedelta loop_fuel (date_today env) dob with
    | Ok delta => Ok (Py.str (RelativeDelta.years delta))
    | Raise e => Raise e
    | Diverge => Diverge
    end.
Proof.
  intros Hq Hdod Hdob Hv Hp. run_guru. rewrite Hq. simpl.
  unfold has_key. rewrite bool_decide_eq_false_2
    by (rewrite Hdod; apply is_Some_None).
  rewrite Hdob. simpl. rewrite Hv. simpl. rewrite Hp. simpl.
  destruct (RelativeDelta.relativedelta loop_fuel (date_today env) dob);
    reflexivity.
Qed.

Lemma relativedelta_years_future (fuel : nat) (today dob : date) :
  valid_date today = true -> valid_date dob = true ->
  date_lt today dob = true ->
  exists delta,
    RelativeDelta.relativedelta (S fuel) today dob = Ok delta
    /\ RelativeDelta.years delta <= 0.
Proof.
  intros Ht Hd Hlt.
  destruct (adjust_valid_future fuel today dob Ht Hd Hlt) as [Hle Hadj].
  cbv zeta in Hle, Hadj.
  unfold RelativeDelta.relativedelta. rewrite Hlt. cbv zeta. cbv iota beta.
  rewrite Hadj. eexists. split; [reflexivity|].
  match goal with
  | |- RelativeDelta.years (RelativeDelta.set_months ?m) <= 0 =>
      destruct (set_months_index m) as (Hsum & Hr & _ & _)
  end.
  lia.
Qed.

Lemma whole_years_between (today dob : date) :
  let n := whole_years today dob in
  date_le (anniversary (year dob + n) dob) today = true
  /\ date_lt today (anniversary (year dob + n + 1) dob) = true.
Proof.
  unfold whole_years.
  destruct (date_lt today (anniversary (year today) dob)) eqn:E; cbv zeta.
  - replace (year dob + (year today - year dob - 1) + 1) with (year today) by lia.
    split; [|exact E].
    unfold date_le. apply negb_true_iff, date_lt_false.
    unfold anniversary. cbn [year month day]. lia.
  - replace (year dob + (year today - year dob - 0)) with (year today) by lia.
    split.
    + unfold date_le. now rewrite E.
    + apply date_lt_spec. unfold anniversary. cbn [year month day]. lia.
Qed.

Lemma whole_years_mono (today1 today2 dob : date) :
  date_le today1 today2 = true ->
  whole_years today1 dob <= whole_years today2 dob.
Proof.
  unfold date_le. intros H. apply negb_true_iff, date_lt_false in H.
  unfold whole_years.
  destruct (Z.eq_dec (year today1) (year today2)) as [Ey|Ey].
  - rewrite Ey.
    destruct (date_lt today1 (anniversary (year today2) dob)) eqn:E1;
      destruct (date_lt today2 (anniversary (year today2) dob)) eqn:E2;
      try lia.
    exfalso. apply date_lt_false in E1. apply date_lt_spec in E2.
    unfold anniversary in *. cbn [year month day] in *. lia.
  - destruct (date_lt today1 (anniversary (year today1) dob));
      destruct (date_lt today2 (anniversary (year today2) dob)); lia.
Qed.

(** X10. When the date of birth parses to a date after today, [get_age]
    still returns, and what it returns is the text of an integer that is
    zero or negative. *)
Theorem get_age_born_after_today
    (env : Env) (person : string) (log : list string) (b : binding)
    (field : gmap string string) (text : string) (dob : date) :
  sparql_query env (person_query person) = Ok (mkresult [b]) ->
  b !! "date_of_death" = None ->
  b !! "date_of_birth" = Some field ->
  field !! "value" = Some text ->
  dateutil_parse env text = Ok dob ->
  valid_date dob = true ->
  valid_date (date_today env) = true ->
  date_lt (date_today env) dob = true ->
  exists z : Z, fst (get_age env person log) = Ok (Py.str z) /\ z <= 0.
Proof.
  intros Hq Hdod Hdob Hv Hp Hvd Hvt Hlt.
  rewrite (get_age_living env person log b field text dob) by assumption.
  destruct (relativedelta_years_future (Nat.pred loop_fuel) _ _ Hvt Hvd Hlt)
    as (delta & Hrd & Hle).
  change (S (Nat.pred loop_fuel)) with loop_fuel in Hrd. rewrite Hrd.
  exists (RelativeDelta.years delta). now split.
Qed.

(** X11. The age [get_age] returns for a living subject born not after
    today is the number [n] of the last anniversary reached: today is on
    or after the [n]-th anniversary of the birth and before the next. *)
Theorem get_age_between_anniversaries
    (env : Env) (person : string) (log : list string) (b : binding)
    (field : gmap string string) (text : string) (dob : date) :
  sparql_query env (person_query person) = Ok (mkresult [b]) ->
  b !! "date_of_death" = None ->
  b !! "date_of_birth" = Some field ->
  field !! "value" = Some text ->
  dateutil_parse env text = Ok dob ->
  valid_date dob = true ->
  valid_date (date_today env) = true ->
  date_le dob (date_today env) = true ->
  exists n : nat,
    fst (get_age env person log) = Ok (Py.str (Z.of_nat n))
    /\ date_le (anniversary (year dob + Z.of_nat n) dob) (date_today env) = true
    /\ date_lt (date_today env) (anniversary (year dob + Z.of_nat n + 1) dob)
       = true.
Proof.
  intros Hq Hdod Hdob Hv Hp Hvd Hvt Hle.
  rewrite (get_age_living env person log b field text dob) by assumption.
  destruct (relativedelta_years (Nat.pred loop_fuel) _ _ Hvt Hvd Hle)
    as (delta & Hrd & Hyears & Hnn).
  change (S (Nat.pred loop_fuel)) with loop_fuel in Hrd. rewrite Hrd.
  exists (Z.to_nat (RelativeDelta.years delta)).
  rewrite Z2Nat.id by exact Hnn. split; [reflexivity|].
  rewrite Hyears. apply whole_years_between.
Qed.

(** X12. The age does not go down as the clock goes on: asked on two days,
    the later day gives an age at least as large. *)
Theorem get_age_monotone
    (client : string -> res QueryResult) (parse : string -> res date)
    (today1 today2 : date) (lower strip title : string -> string)
    (person : string) (log : list string) (b : binding)
    (field : gmap string string) (text : string) (dob : date) :
  client (person_query person) = Ok (mkresult [b]) ->
  b !! "date_of_death" = None ->
  b !! "date_of_birth" = Some field ->
  field !! "value" = Some text ->
  parse text = Ok dob ->
  valid_date dob = true ->
  valid_date today1 = true ->
  valid_date today2 = true ->
  date_le dob today1 = true ->
  date_le today1 today2 = true ->
  exists n1 n2 : nat,
    fst (get_age (mkenv client parse today1 lower strip title) person log)
    = Ok (Py.str (Z.of_nat n1))
    /\ fst (get_age (mkenv client parse today2 lower strip title) person log)
       = Ok (Py.str (Z.of_nat n2))
    /\ (n1 <= n2)%nat.
Proof.
  intros Hq Hdod Hdob Hv Hp Hvd Hv1 Hv2 Hle1 Hle12.
  assert (Hle2 : date_le dob today2 = true).
  { unfold date_le in *. apply negb_true_iff, date_lt_false.
    apply negb_true_iff, date_lt_false in Hle1.
    apply negb_true_iff, date_lt_false in Hle12. lia. }
  rewrite (get_age_living (mkenv client parse today1 lower strip title) person log b field text dob)
    by assumption.
  rewrite (get_age_living (mkenv client parse today2 lower strip title) person log b field text dob)
    by assumption.
  cbn [date_today].
  destruct (relativedelta_years (Nat.pred loop_fuel) _ _ Hv1 Hvd Hle1)
    as (d1 & Hrd1 & Hy1 & Hnn1).
  destruct (relativedelta_years (Nat.pred loop_fuel) _ _ Hv2 Hvd Hle2)
    as (d2 & Hrd2 & Hy2 & Hnn2).
  change (S (Nat.pred loop_fuel)) with loop_fuel in Hrd1, Hrd2.
  rewrite Hrd1, Hrd2.
  exists (Z.to_nat (RelativeDelta.years d1)), (Z.to_nat (RelativeDelta.years d2)).
  rewrite !Z2Nat.id by assumption. repeat split.
  apply Z2Nat.inj_le; try assumption.
  rewrite Hy1, Hy2. now apply whole_years_mono.
Qed.

(** X13. Whatever the client and the parser give, an answer of [get_age]
    is the decimal text of an integer. *)
Theorem get_age_answer_is_a_number
    (env : Env) (person : string) (log log' : list string) (answer : string) :
  get_age env person log = (Ok answer, log') ->
  exists z : Z, answer = Py.str z.
Proof.
  run_guru.
  repeat (match goal with
          | |- context [match ?x with _ => _ end] =>
              lazymatch x with
              | context [match _ with _ => _ end] => fail
              | _ => destruct x; simpl
              end
          end);
    intros H; try discriminate H.
  injection H as <- _. eexists. reflexivity.
Qed.

End MoreAge.

(** ** The further theorems at the fixture and at stub environments *)

Lemma build_query_determines_subject_witness :
  Spec.Age = Spec.Age /\ "Tony Blair" = "Tony Blair".
Proof.
  apply (build_query_determines_subject Spec.Age Spec.Age
           "Tony Blair" "Tony Blair").
  reflexivity.
Defined.

Lemma ask_client_failure_witness :
  ask (Stub.env (Raise (Foreign "timed out")) (mkdate 2023 9 1))
      "how old is Tony Blair" []
  = (Raise (Foreign "timed out"), [person_query "Tony Blair"])
  /\ ask (Stub.env Diverge (mkdate 2023 9 1))
         "what is the population of London" []
     = (Diverge, [city_query "London"]).
Proof.
  split.
  - apply (proj1 (ask_client_failure
                    (Stub.env (Raise (Foreign "timed out")) (mkdate 2023 9 1))
                    Spec.Age "how old is Tony Blair" [] eq_refl eq_refl)).
    reflexivity.
  - apply (proj2 (ask_client_failure
                    (Stub.env Diverge (mkdate 2023 9 1))
                    Spec.Population "what is the population of London" []
                    eq_refl eq_refl)).
    reflexivity.
Defined.

Lemma get_age_missing_birth_field_witness :
  fst (get_age (Stub.env (Stub.one ∅) (mkdate 2023 9 1)) "Tony Blair" [])
  = Raise (KeyError "date_of_birth")
  /\ fst (get_age (Stub.env (Stub.one {[ "date_of_birth" := ∅ ]}) (mkdate 2023 9 1))
             "Tony Blair" [])
     = Raise (KeyError "value").
Proof.
  split.
  - destruct (get_age_missing_birth_field
                (Stub.env (Stub.one ∅) (mkdate 2023 9 1)) "Tony Blair" [] ∅)
      as [H _]; [reflexivity|vm_compute; reflexivity|].
    apply H. vm_compute. reflexivity.
  - destruct (get_age_missing_birth_field
                (Stub.env (Stub.one {[ "date_of_birth" := ∅ ]}) (mkdate 2023 9 1))
                "Tony Blair" [] {[ "date_of_birth" := ∅ ]})
      as [_ H]; [reflexivity|vm_compute; reflexivity|].
    apply (H ∅); vm_compute; reflexivity.
Defined.

Lemma get_age_parser_failure_witness :
  fst (get_age (Stub.env (Stub.one (Fixture.person "unknown" None)) (mkdate 2023 9 1))
         "Tony Blair" [])
  = Raise (ValueError "Unknown string format: unknown").
Proof.
  apply (get_age_parser_failure
           (Stub.env (Stub.one (Fixture.person "unknown" None)) (mkdate 2023 9 1))
           "Tony Blair" [] (Fixture.person "unknown" None)
           (Fixture.value "unknown") "unknown");
    vm_compute; reflexivity.
Defined.

Lemma get_population_missing_value_witness :
  fst (get_population (Stub.env (Stub.one {[ "population" := ∅ ]}) (mkdate 2023 9 1))
         "London" [])
  = Raise (KeyError "value").
Proof.
  apply (get_population_missing_value
           (Stub.env (Stub.one {[ "population" := ∅ ]}) (mkdate 2023 9 1))
           "London" [] {[ "population" := ∅ ]} ∅);
    vm_compute; reflexivity.
Defined.

Lemma ask_answer_needs_single_binding_witness :
  exists k b,
    Spec.kind_of Fixture.env "how old is Tony Blair" = Some k
    /\ Spec.blank Fixture.env (Spec.remainder Fixture.env k "how old is Tony Blair")
       = false
    /\ [person_query "Tony Blair"]
       = ([] ++ [Spec.build_query k
                   (Spec.subject Fixture.env k "how old is Tony Blair")])%list
    /\ sparql_query Fixture.env
         (Spec.build_query k (Spec.subject Fixture.env k "how old is Tony Blair"))
       = Ok (mkresult [b])
    /\ (k = Spec.Age -> b !! "date_of_death" = None).
Proof.
  apply (ask_answer_needs_single_binding Fixture.env "how old is Tony Blair"
           [] [person_query "Tony Blair"] "70").
  vm_compute. reflexivity.
Defined.

Lemma ask_ignores_case_witness :
  ask Fixture.env "what is the population of lOndon"
  = ask Fixture.env "what is the population of London"
  /\ ask Fixture.env "How old is ÉMILE Zola" = ask Fixture.env "how old is émile zola".
Proof.
  split.
  - apply (ask_ignores_case Fixture.env).
    + reflexivity.
    + exists Spec.Population. reflexivity.
  - apply (ask_ignores_case Fixture.env).
    + reflexivity.
    + exists Spec.Age. reflexivity.
Defined.

Lemma ask_sends_normalised_subject_witness :
  Spec.trimmed "Tony O'Neil" = true /\ Spec.title_cased "Tony O'Neil" = true.
Proof.
  apply (ask_sends_normalised_subject Fixture.env "HOW OLD IS  tONY o'NEIL " []
           Spec.Age "Tony O'Neil").
  - exact fixture_lawful.
  - reflexivity.
  - left. reflexivity.
Defined.

Lemma ask_prefixed_question_witness :
  ask Fixture.env "How Old Is   FRANÇOIS hollande "
  = get_age Fixture.env "François Hollande".
Proof.
  apply (ask_prefixed_question Fixture.env Spec.Age
           "How Old Is   FRANÇOIS hollande " "  françois hollande ").
  - reflexivity.
  - intros []; reflexivity.
  - reflexivity.
Defined.

Lemma get_age_born_after_today_witness :
  exists z : Z,
    fst (get_age Fixture.env "Time Traveller" []) = Ok (Py.str z) /\ z <= 0.
Proof.
  apply (get_age_born_after_today Fixture.env "Time Traveller" []
           (Fixture.person "2030-01-01T00:00:00Z" None)
           (Fixture.value "2030-01-01T00:00:00Z")
           "2030-01-01T00:00:00Z" (mkdate 2030 1 1));
    vm_compute; reflexivity.
Defined.

Lemma get_age_between_anniversaries_witness :
  exists n : nat,
    fst (get_age Fixture.env "Tony Blair" []) = Ok (Py.str (Z.of_nat n))
    /\ Calendar.date_le (Spec.anniversary (1953 + Z.of_nat n) (mkdate 1953 5 6))
         (mkdate 2023 9 1) = true
    /\ Calendar.date_lt (mkdate 2023 9 1)
         (Spec.anniversary (1953 + Z.of_nat n + 1) (mkdate 1953 5 6)) = true.
Proof.
  apply (get_age_between_anniversaries Fixture.env "Tony Blair" []
           (Fixture.person "1953-05-06T00:00:00Z" None)
           (Fixture.value "1953-05-06T00:00:00Z")
           "1953-05-06T00:00:00Z" (mkdate 1953 5 6));
    vm_compute; reflexivity.
Defined.

Lemma get_age_monotone_witness :
  exists n1 n2 : nat,
    fst (get_age (mkenv Fixture.client Fixture.parse_iso (mkdate 2023 9 1)
              Utf8.lower Utf8.strip Utf8.title)
           "Tony Blair" [])
    = Ok (Py.str (Z.of_nat n1))
    /\ fst (get_age (mkenv Fixture.client Fixture.parse_iso (mkdate 2024 5 6)
              Utf8.lower Utf8.strip Utf8.title)
              "Tony Blair" [])
       = Ok (Py.str (Z.of_nat n2))
    /\ (n1 <= n2)%nat.
Proof.
  apply (get_age_monotone Fixture.client Fixture.parse_iso
           (mkdate 2023 9 1) (mkdate 2024 5 6)
           Utf8.lower Utf8.strip Utf8.title "Tony Blair" []
           (Fixture.person "1953-05-06T00:00:00Z" None)
           (Fixture.value "1953-05-06T00:00:00Z")
           "1953-05-06T00:00:00Z" (mkdate 1953 5 6));
    vm_compute; reflexivity.
Defined.

Lemma get_age_answer_is_a_number_witness :
  exists z : Z, "70" = Py.str z.
Proof.
  apply (get_age_answer_is_a_number Fixture.env "Tony Blair" []
           [person_query "Tony Blair"] "70").
  vm_compute. reflexivity.
Defined.
